(** * Polar-Image-Inspector: the WaMoS II polar image reader

    A shallow embedding of [Wamos2/polar_image.py] (class [PolarImage])
    and of the raster loading path of [PolarImageInspector.py], with the
    properties of the parse, decode and render pipeline proved over it.

    Conventions of the embedding
    - Python [bytes] are [list byte]; Python [str] values are [string]
      (all text of the file comes from [bytes.decode("latin1")], so one
      character is one code point below 256). The name given to [get] and
      [describe] is a [Py.ustr]: [str.upper] leads out of Latin-1.
    - Python [int] is [Z]; Python [float] is IEEE 754 binary64, taken from
      the Standard Library's [SpecFloat] ([prec = 53], [emax = 1024]).
    - A method of [PolarImage] is a computation in the monad [M], which
      threads the object's attributes and the log sink and may raise.
    - numpy arrays carry mathematical integers; extents are not bounded by
      the address space of a machine. *)

From Stdlib Require Import ZArith List Bool Lia.
From Stdlib.Strings Require Import String Ascii Byte.
From Stdlib Require Import SpecFloat QArith Qround.
From stdpp Require Import base decidable option list gmap strings.

Local Open Scope Z_scope.

(** ** Results and exceptions *)

Inductive exn :=
| ValueError | TypeError | KeyError | IndexError | ZeroDivisionError
| OverflowError | AttributeError | OSError.

Inductive result (A : Type) :=
| Ok (a : A)
| Raise (e : exn).
Arguments Ok {A} a.
Arguments Raise {A} e.

Definition is_ok {A} (r : result A) : bool :=
  match r with Ok _ => true | Raise _ => false end.

(** ** Python built-ins used by the reader *)

Module Py.

Abbreviation chars := list_ascii_of_string.
Abbreviation text := string_of_list_ascii.

Definition code (c : ascii) : Z := Z.of_N (N_of_ascii c).
Definition chr (n : Z) : ascii := ascii_of_N (Z.to_N n).

Definition between (lo hi : Z) (c : ascii) : bool :=
  (lo <=? code c) && (code c <=? hi).

(** [0]..[9]. *)
Definition is_decimal (c : ascii) : bool := between 48 57 c.

(** [str.isspace] on one Latin-1 character: TAB..CR, FS..US, space, NEL
    and the no-break space. *)
Definition isspace (c : ascii) : bool :=
  between 9 13 c || between 28 32 c || (code c =? 133) || (code c =? 160).

(** The white space that [int()] and [float()] skip at both ends: the C
    white space, and the two Latin-1 spaces that the conversion to ASCII
    turns into a blank. *)
Definition is_number_space (c : ascii) : bool :=
  between 9 13 c || (code c =? 32) || (code c =? 133) || (code c =? 160).

(** Characters for which [str.isdigit] holds: the decimal digits and the
    superscript digits two, three and one. *)
Definition isdigit_char (c : ascii) : bool :=
  is_decimal c || (code c =? 178) || (code c =? 179) || (code c =? 185).

(** [str.isdigit]: at least one character, and all of them digits. *)
Definition isdigit (s : string) : bool :=
  match chars s with
  | [] => false
  | l => forallb isdigit_char l
  end.

Definition lower_char (c : ascii) : ascii :=
  if between 65 90 c || between 192 214 c || between 216 222 c
  then chr (code c + 32) else c.

(** The capital of a Latin-1 letter when it is again one Latin-1
    character (the three letters for which it is not are dealt with in
    [upper] below). *)
Definition upper_char (c : ascii) : ascii :=
  if between 97 122 c || between 224 246 c || between 248 254 c
  then chr (code c - 32) else c.

(** [str.lower] on a Latin-1 text (the small letter of every Latin-1
    capital is a Latin-1 character). *)
Definition lower (s : string) : string := text (map lower_char (chars s)).

(** *** Attribute names *)

(** The name given to [get] and [describe] is a text of the caller, and
    [str.upper] takes three Latin-1 letters out of Latin-1 or out of
    their place: the sharp s becomes [SS], the y with diaeresis becomes
    [U+0178] and the micro sign becomes [U+039C]. The characters of a name
    are therefore those of Latin-1 and these two capitals. *)
Inductive uchar :=
| Latin1 (c : ascii)
| CapitalYDiaeresis
| CapitalMu.

Definition ustr := list uchar.

(** A Latin-1 text as a name. *)
Definition name_of (s : string) : ustr := map Latin1 (chars s).

Definition upper_uchar (c : uchar) : list uchar :=
  match c with
  | Latin1 a =>
      if code a =? 223 then [Latin1 (chr 83); Latin1 (chr 83)]
      else if code a =? 255 then [CapitalYDiaeresis]
      else if code a =? 181 then [CapitalMu]
      else [Latin1 (upper_char a)]
  | CapitalYDiaeresis => [CapitalYDiaeresis]
  | CapitalMu => [CapitalMu]
  end.

(** [str.upper]. *)
Definition upper (s : ustr) : ustr := List.flat_map upper_uchar s.

Definition latin1_char (c : uchar) : option ascii :=
  match c with
  | Latin1 a => Some a
  | _ => None
  end.

(** The Latin-1 text equal to a name, when there is one. *)
Fixpoint latin1_chars (s : ustr) : option (list ascii) :=
  match s with
  | [] => Some []
  | c :: s' =>
      match latin1_char c, latin1_chars s' with
      | Some a, Some l => Some (a :: l)
      | _, _ => None
      end
  end.

Definition to_latin1 (s : ustr) : option string := text <$> latin1_chars s.

(** *** Searching and splitting sequences *)

Section Sequences.
Context {A : Type} `{EqDecision A}.

Fixpoint startswith (p l : list A) : bool :=
  match p, l with
  | [], _ => true
  | _ :: _, [] => false
  | a :: p', b :: l' => bool_decide (a = b) && startswith p' l'
  end.

Fixpoint find_from (sub l : list A) (i : Z) : Z :=
  if startswith sub l then i
  else match l with
       | [] => -1
       | _ :: l' => find_from sub l' (i + 1)
       end.

(** [seq.find(sub)]: the lowest index of [sub], or [-1]. *)
Definition find (sub l : list A) : Z := find_from sub l 0.

(** [seq.split(sep)] for a non-empty [sep]; [skip] counts the elements
    of a separator just recognised that are still to be passed over. *)
Fixpoint split_go (sep l : list A) (skip : nat) (cur : list A) : list (list A) :=
  match l with
  | [] => [rev cur]
  | a :: l' =>
      match skip with
      | S k => split_go sep l' k cur
      | O => if startswith sep l
             then rev cur :: split_go sep l' (length sep - 1) []
             else split_go sep l' 0 (a :: cur)
      end
  end.

Definition split (sep l : list A) : list (list A) := split_go sep l 0 [].

(** [seq[:n]] and [seq[n:]] for an index [n >= 0]. *)
Definition slice_to (n : Z) (l : list A) : list A := take (Z.to_nat n) l.
Definition slice_from (n : Z) (l : list A) : list A := drop (Z.to_nat n) l.

(** [lst[:-1]]. *)
Definition drop_last (l : list A) : list A := take (length l - 1) l.
End Sequences.

(** [str.split()] : the maximal runs of characters that are not white space. *)
Fixpoint split_ws (l cur : list ascii) : list (list ascii) :=
  match l with
  | [] => match cur with [] => [] | _ => [rev cur] end
  | c :: l' =>
      if isspace c
      then match cur with
           | [] => split_ws l' []
           | _ => rev cur :: split_ws l' []
           end
      else split_ws l' (c :: cur)
  end.

Fixpoint join (sep : list ascii) (ws : list (list ascii)) : list ascii :=
  match ws with
  | [] => []
  | [w] => w
  | w :: ws' => w ++ sep ++ join sep ws'
  end.

(** [s.split(" ", maxsplit=1)]. *)
Fixpoint split_space1 (l pre : list ascii) : list (list ascii) :=
  match l with
  | [] => [rev pre]
  | c :: l' => if code c =? 32 then [rev pre; l'] else split_space1 l' (c :: pre)
  end.

Fixpoint lstrip_by (sp : ascii -> bool) (l : list ascii) : list ascii :=
  match l with
  | c :: l' => if sp c then lstrip_by sp l' else l
  | [] => []
  end.

Fixpoint rstrip_by (sp : ascii -> bool) (l : list ascii) : list ascii :=
  match l with
  | [] => []
  | c :: l' =>
      match rstrip_by sp l' with
      | [] => if sp c then [] else [c]
      | r => c :: r
      end
  end.

(** [str.strip()]. *)
Definition strip (s : string) : string :=
  text (rstrip_by isspace (lstrip_by isspace (chars s))).

(** *** [int(str)] *)

Definition digit_val (c : ascii) : Z := code c - 48.

Definition is_underscore (c : ascii) : bool := code c =? 95.

(** Digits with single underscores between them; [after_us] records that
    the previous character was an underscore. *)
Fixpoint int_digits (l : list ascii) (after_us : bool) (acc : Z) : option Z :=
  match l with
  | [] => if after_us then None else Some acc
  | c :: l' =>
      if is_decimal c then int_digits l' false (10 * acc + digit_val c)
      else if is_underscore c
           then (if after_us then None else int_digits l' true acc)
           else None
  end.

Definition int_body (l : list ascii) : option Z :=
  match l with
  | c :: _ => if is_decimal c then int_digits l false 0 else None
  | [] => None
  end.

Definition int_signed (l : list ascii) : option Z :=
  match l with
  | c :: l' =>
      if code c =? 45 then Z.opp <$> int_body l'
      else if code c =? 43 then int_body l'
      else int_body l
  | [] => None
  end.

Definition number_strip (l : list ascii) : list ascii :=
  rstrip_by is_number_space (lstrip_by is_number_space l).

(** The interpreter's default cap on the number of digits of a decimal
    string that [int] converts. *)
Definition max_str_digits : Z := 4300.

(** [int(s)] in base ten. The text is refused when it is no integer
    literal, and also when it has more decimal digits than the cap: the
    leading zeros count, the sign, the underscores and the white space
    around the number do not. *)
Definition int_of_str (s : string) : result Z :=
  let l := number_strip (chars s) in
  match int_signed l with
  | Some z =>
      if max_str_digits <? Z.of_nat (length (List.filter is_decimal l))
      then Raise ValueError
      else Ok z
  | None => Raise ValueError
  end.

(** *** Binary64 numbers *)

Definition float := spec_float.
Definition prec : Z := 53.
Definition emax : Z := 1024.

Definition fmul : float -> float -> float := SFmul prec emax.
Definition fdiv : float -> float -> float := SFdiv prec emax.

(** The integer [z], rounded to nearest even. *)
Definition float_of_Z (z : Z) : float := binary_normalize prec emax z 0 false.

(** The decimal [(-1)^neg * m * 10^e] with [0 <= m], correctly rounded. *)
Definition float_of_decimal (neg : bool) (m e : Z) : float :=
  match m with
  | Zpos p =>
      if 0 <=? e
      then binary_round prec emax neg (Z.to_pos (Zpos p * 10 ^ e)) 0
      else fdiv (S754_finite neg p 0) (S754_finite false (Z.to_pos (10 ^ (- e))) 0)
  | _ => S754_zero neg
  end.

Definition is_zero (f : float) : bool :=
  match f with S754_zero _ => true | _ => false end.

(** Conversion of an [int] operand of a float operation. *)
Definition float_of_int (z : Z) : result float :=
  match float_of_Z z with
  | S754_infinity _ => Raise OverflowError
  | f => Ok f
  end.

(** [a / b] on floats. *)
Definition truediv (a b : float) : result float :=
  if is_zero b then Raise ZeroDivisionError else Ok (fdiv a b).

(** The integer a finite float denotes when it is one, [None] otherwise. *)
Definition integral (f : float) : option Z :=
  match f with
  | S754_zero _ => Some 0
  | S754_finite s m e =>
      if 0 <=? e then Some (cond_Zopp s (Zpos m * 2 ^ e))
      else if Zpos m mod 2 ^ (- e) =? 0
           then Some (cond_Zopp s (Zpos m / 2 ^ (- e)))
           else None
  | _ => None
  end.

(** [int(f)]: truncation towards zero. *)
Definition int_of_float (f : float) : result Z :=
  match f with
  | S754_zero _ => Ok 0
  | S754_finite s m e =>
      Ok (cond_Zopp s (if 0 <=? e then Zpos m * 2 ^ e else Zpos m / 2 ^ (- e)))
  | S754_infinity _ => Raise OverflowError
  | S754_nan => Raise ValueError
  end.

(** [numpy.ceil] on one float. *)
Definition ceil (f : float) : float :=
  match f with
  | S754_finite s m e =>
      if 0 <=? e then f
      else let q := Zpos m / 2 ^ (- e) in
           let up := if Zpos m mod 2 ^ (- e) =? 0 then 0 else 1 in
           let n := if s then - q else q + up in
           if n =? 0 then S754_zero s else float_of_Z n
  | _ => f
  end.

(** *** [float(str)] *)

Definition ascii_lower (c : ascii) : ascii :=
  if between 65 90 c then chr (code c + 32) else c.

(** Underscores are accepted between two digits only, and are dropped;
    [prev] is the character before [l]. *)
Fixpoint drop_underscores (l : list ascii) (prev : ascii) : option (list ascii) :=
  match l with
  | [] => if is_underscore prev then None else Some []
  | c :: l' =>
      if is_underscore c
      then (if is_decimal prev then drop_underscores l' c else None)
      else if is_underscore prev && negb (is_decimal c) then None
           else cons c <$> drop_underscores l' c
  end.

Fixpoint take_digits (l : list ascii) : list ascii * list ascii :=
  match l with
  | c :: l' =>
      if is_decimal c
      then let '(ds, r) := take_digits l' in (c :: ds, r)
      else ([], l)
  | [] => ([], [])
  end.

Definition digits_value (ds : list ascii) : Z :=
  fold_left (fun acc c => 10 * acc + digit_val c) ds 0.

Definition take_sign (l : list ascii) : bool * list ascii :=
  match l with
  | c :: l' =>
      if code c =? 45 then (true, l')
      else if code c =? 43 then (false, l')
      else (false, l)
  | [] => (false, [])
  end.

(** Digits, an optional point and fraction, an optional exponent; the
    result is the mantissa and the power of ten. An exponent mark with no
    digit after it is not consumed, so the text is then refused. *)
Definition decimal_number (l : list ascii) : option (Z * Z) :=
  let '(ip, r1) := take_digits l in
  let '(fp, r2) :=
    match r1 with
    | c :: r => if code c =? 46 then take_digits r else ([], r1)
    | [] => ([], r1)
    end in
  match ip ++ fp with
  | [] => None
  | ds =>
      let m := digits_value ds in
      let frac := Z.of_nat (length fp) in
      match r2 with
      | [] => Some (m, - frac)
      | c :: r =>
          if (code c =? 101) || (code c =? 69)
          then let '(eneg, r') := take_sign r in
               let '(ed, r3) := take_digits r' in
               match ed, r3 with
               | _ :: _, [] => Some (m, cond_Zopp eneg (digits_value ed) - frac)
               | _, _ => None
               end
          else None
      end
  end.

Definition is_word (w : string) (l : list ascii) : bool :=
  bool_decide (map ascii_lower l = chars w).

(** [float(s)]. *)
Definition float_of_str (s : string) : result float :=
  match drop_underscores (number_strip (chars s)) zero with
  | None => Raise ValueError
  | Some l =>
      let '(neg, body) := take_sign l in
      match decimal_number body with
      | Some (m, e) => Ok (float_of_decimal neg m e)
      | None =>
          if is_word "inf" body || is_word "infinity" body
          then Ok (S754_infinity neg)
          else if is_word "nan" body then Ok S754_nan
          else Raise ValueError
      end
  end.

(** *** The same on [str] values *)

Definition find_str (sub s : string) : Z := find (chars sub) (chars s).
Definition str_to (n : Z) (s : string) : string := text (slice_to n (chars s)).
Definition str_from (n : Z) (s : string) : string := text (slice_from n (chars s)).

(** [" ".join(s.split())]. *)
Definition normalize_spaces (s : string) : string :=
  text (join (chars " ") (split_ws (chars s) [])).

(** [s.split(" ", maxsplit=1)]. *)
Definition split1 (s : string) : list string :=
  map text (split_space1 (chars s) []).

(** The float literals of the renderer. *)
Definition f3_75 : float := float_of_decimal false 375 (-2).
Definition f3e8 : float := float_of_decimal false 3 8.
Definition f1e6 : float := float_of_decimal false 1 6.

End Py.

Coercion Py.name_of : string >-> Py.ustr.

(** ** Header values *)

(** What a header entry can hold: the results of [auto_type], and [None]. *)
Inductive Value :=
| VNone
| VInt (z : Z)
| VFloat (f : Py.float)
| VBool (b : bool)
| VStr (s : string).

Record HeaderEntry := mkEntry { value : Value; description : string }.

#[global] Instance spec_float_eq_dec : EqDecision spec_float.
Proof. solve_decision. Defined.
#[global] Instance Value_eq_dec : EqDecision Value.
Proof. solve_decision. Defined.
#[global] Instance HeaderEntry_eq_dec : EqDecision HeaderEntry.
Proof. solve_decision. Defined.

(** [int(v)]. *)
Definition int_of (v : Value) : result Z :=
  match v with
  | VNone => Raise TypeError
  | VInt z => Ok z
  | VFloat f => Py.int_of_float f
  | VBool b => Ok (Z.b2z b)
  | VStr s => Py.int_of_str s
  end.

(** [v == n] for an integer literal [n]. *)
Definition eq_int (v : Value) (n : Z) : bool :=
  match v with
  | VInt z => z =? n
  | VBool b => Z.b2z b =? n
  | VFloat f => match Py.integral f with Some z => z =? n | None => false end
  | _ => false
  end.

(** [2 * v]. *)
Definition twice (v : Value) : result Value :=
  match v with
  | VNone => Raise TypeError
  | VInt z => Ok (VInt (2 * z))
  | VBool b => Ok (VInt (2 * Z.b2z b))
  | VFloat f => Ok (VFloat (Py.fmul (Py.float_of_Z 2) f))
  | VStr s => Ok (VStr (s ++ s))
  end.

(** [a // b] on integers. *)
Definition floordiv (a b : Z) : result Z :=
  if b =? 0 then Raise ZeroDivisionError else Ok (a / b).

(** ** numpy arrays *)

Module Np.

(** A one-dimensional array, or a two-dimensional one given by its rows and
    the length of a row (a matrix with no row still has a width). *)
Inductive ndarray :=
| Arr1 (data : list Z)
| Arr2 (ncols : nat) (rows : list (list Z)).

(** [np.array([])]. *)
Definition empty : ndarray := Arr1 [].

Inductive dtype := uint8 | uint16.

Definition byte_val (b : byte) : Z := Z.of_N (Byte.to_N b).

(** Pairs of bytes as unsigned 16-bit integers, low byte first. *)
Fixpoint words16 (l : list byte) : option (list Z) :=
  match l with
  | [] => Some []
  | [_] => None
  | lo :: hi :: l' => cons (byte_val lo + 256 * byte_val hi) <$> words16 l'
  end.

(** [np.frombuffer(buf, dtype)]: the buffer must hold whole elements. *)
Definition frombuffer (buf : list byte) (dt : dtype) : result (list Z) :=
  match dt with
  | uint8 => Ok (map byte_val buf)
  | uint16 => match words16 buf with Some l => Ok l | None => Raise ValueError end
  end.

(** [k] consecutive rows of [n] elements. *)
Fixpoint chunks (n k : nat) (l : list Z) : list (list Z) :=
  match k with
  | O => []
  | S k' => take n l :: chunks n k' (drop n l)
  end.

(** [a.reshape((r, c))] of a one-dimensional array. A negative extent
    (numpy takes every negative number as it takes [-1]) stands for the
    unknown one: there can be one only, and it is inferred from the other,
    which must not be [0] and must divide the size. Two extents that are
    both given must multiply to the size. *)
Definition reshape (l : list Z) (r c : Z) : result ndarray :=
  let k := Z.of_nat (length l) in
  if (r <? 0) && (c <? 0) then Raise ValueError
  else if r <? 0 then
    if (c =? 0) || negb (k mod c =? 0) then Raise ValueError
    else Ok (Arr2 (Z.to_nat c) (chunks (Z.to_nat c) (Z.to_nat (k / c)) l))
  else if c <? 0 then
    if (r =? 0) || negb (k mod r =? 0) then Raise ValueError
    else Ok (Arr2 (Z.to_nat (k / r)) (chunks (Z.to_nat (k / r)) (Z.to_nat r) l))
  else if r * c =? k
    then Ok (Arr2 (Z.to_nat c) (chunks (Z.to_nat c) (Z.to_nat r) l))
    else Raise ValueError.

(** [a &= mask]. *)
Definition band (mask : Z) (a : ndarray) : ndarray :=
  match a with
  | Arr1 d => Arr1 (map (fun x => Z.land x mask) d)
  | Arr2 n rows => Arr2 n (map (map (fun x => Z.land x mask)) rows)
  end.

(** [a[:, 0] = v] on a matrix. *)
Definition set_column0 (v : Z) (a : ndarray) : result ndarray :=
  match a with
  | Arr1 _ => Raise IndexError
  | Arr2 O _ => Raise IndexError
  | Arr2 n rows => Ok (Arr2 n (map (fun row => v :: tail row) rows))
  end.

(** [a.shape[0]] and [a.shape]. *)
Definition shape0 (a : ndarray) : nat :=
  match a with
  | Arr1 d => length d
  | Arr2 _ rows => length rows
  end.

Definition shape (a : ndarray) : list nat :=
  match a with
  | Arr1 d => [length d]
  | Arr2 n rows => [length rows; n]
  end.

(** [np.full((nrows, ncols), v)]. *)
Definition full (nrows : nat) (ncols : Z) (v : Z) : result ndarray :=
  if ncols <? 0 then Raise ValueError
  else Ok (Arr2 (Z.to_nat ncols) (repeat (repeat v (Z.to_nat ncols)) nrows)).

(** [np.concatenate((a, b), axis=1)]: both two-dimensional, with the same
    number of rows. *)
Definition concatenate1 (a b : ndarray) : result ndarray :=
  match a, b with
  | Arr2 na ra, Arr2 nb rb =>
      if bool_decide (length ra = length rb)
      then Ok (Arr2 (na + nb) (zip_with app ra rb))
      else Raise ValueError
  | _, _ => Raise ValueError
  end.

End Np.

(** ** The log sink *)

Inductive Level := DEBUG | INFO | WARNING | ERROR | CRITICAL.

Inductive PyType := TInt | TFloat | TBool.

(** One constructor per message of [polar_image.py], with the data it
    interpolates; the text of an interpolated exception is left out. *)
Inductive Message :=
| ErrorProcessingFile
| EohMarkerNotFound
| ImageContentNotFound
| ImageDataNotFound
| Processed
| ErrorOpeningFile
| FoundNoValue (misc : list string)
| DescriptionNotFound (keys : list string)
| HeaderCreated
| FoundImageSize (size : Z)
| ErrorProcessingImage
| ErrorDecodingImageSize
| ErrorAccessingDabit
| HeaderNotInitialized
| AttributeNotFound (attribute : Py.ustr)
| Converted (s : string) (ty : PyType)
| ReturningOriginal (s : string)
| UnsupportedDabit (dabit : Z)
| CreatedImageArray (shape : list nat)
| ErrorCreatingImageArray
| SavingTo.

(** ** The [PolarImage] object *)

(** The attributes of a [PolarImage] ([image_array] is unset until the
    decoder has run) and the records sent to the logger so far. The path
    of the file is represented by what reading it gives. *)
Record PolarImage := mkPolarImage {
  image_size : Z;
  header : gmap string HeaderEntry;
  image_data : option (list byte);
  eoh : option Z;
  image_array : option Np.ndarray;
  log : list (Level * Message)
}.

Definition set_image_size (v : Z) (s : PolarImage) : PolarImage :=
  mkPolarImage v (header s) (image_data s) (eoh s) (image_array s) (log s).
Definition set_header (v : gmap string HeaderEntry) (s : PolarImage) : PolarImage :=
  mkPolarImage (image_size s) v (image_data s) (eoh s) (image_array s) (log s).
Definition set_image_data (v : option (list byte)) (s : PolarImage) : PolarImage :=
  mkPolarImage (image_size s) (header s) v (eoh s) (image_array s) (log s).
Definition set_eoh (v : option Z) (s : PolarImage) : PolarImage :=
  mkPolarImage (image_size s) (header s) (image_data s) v (image_array s) (log s).
Definition set_image_array (v : option Np.ndarray) (s : PolarImage) : PolarImage :=
  mkPolarImage (image_size s) (header s) (image_data s) (eoh s) v (log s).
Definition add_log (r : Level * Message) (s : PolarImage) : PolarImage :=
  mkPolarImage (image_size s) (header s) (image_data s) (eoh s) (image_array s)
    (log s ++ [r]).

(** ** Computations on a [PolarImage] *)

(** A method body: it reads and updates the object and either returns or
    raises; updates made before an exception stay. *)
Definition M (A : Type) : Type := PolarImage -> result A * PolarImage.

Definition ret {A} (a : A) : M A := fun s => (Ok a, s).

Definition bind {A B} (m : M A) (k : A -> M B) : M B :=
  fun s => match m s with
           | (Ok a, s') => k a s'
           | (Raise e, s') => (Raise e, s')
           end.

Definition raise {A} (e : exn) : M A := fun s => (Raise e, s).

Definition lift {A} (r : result A) : M A := fun s => (r, s).

(** [try: m except e: h e]. *)
Definition try_except {A} (m : M A) (h : exn -> M A) : M A :=
  fun s => match m s with
           | (Raise e, s') => h e s'
           | r => r
           end.

Definition read {A} (f : PolarImage -> A) : M A := fun s => (Ok (f s), s).
Definition update (f : PolarImage -> PolarImage) : M unit := fun s => (Ok tt, f s).
Definition logger (lvl : Level) (msg : Message) : M unit := update (add_log (lvl, msg)).

Declare Scope py_scope.
Delimit Scope py_scope with py.
Notation "'let*' x ':=' m 'in' k" := (bind m (fun x => k))
  (at level 10, x name, m at level 100, k at level 200) : py_scope.
Notation "'let*' ' p ':=' m 'in' k" := (bind m (fun x => match x with p => k end))
  (at level 10, p pattern, m at level 100, k at level 200) : py_scope.
Notation "'do' m 'then' k" := (bind m (fun _ => k))
  (at level 10, m at level 100, k at level 200) : py_scope.
Local Open Scope py_scope.

(** Truth value of a [bytes] object that may be [None]. *)
Definition truthy (b : option (list byte)) : bool :=
  match b with
  | Some (_ :: _) => true
  | _ => false
  end.

#[global] Instance byte_eq_dec : EqDecision byte := Byte.byte_eq_dec.

Definition bytes_of (s : string) : list byte := list_byte_of_string s.
Definition latin1 (b : list byte) : string := string_of_list_byte b.

(** ** Methods of [PolarImage] *)

(** [d[name]] in a dictionary whose keys are Latin-1 texts (those of the
    header come from [bytes.decode("latin1")]): a name with a character
    outside Latin-1 is equal to none of them. *)
Definition item (d : gmap string HeaderEntry) (name : Py.ustr) : option HeaderEntry :=
  match Py.to_latin1 name with
  | Some key => d !! key
  | None => None
  end.

(** [get]: the value of a header attribute, [None] when the header is
    empty or lacks it. *)
Definition get (attribute : Py.ustr) : M Value :=
  let attribute := Py.upper attribute in
  let* h := read header in
  if bool_decide (h = ∅)
  then do logger WARNING HeaderNotInitialized then ret VNone
  else match item h attribute with
       | Some e => ret (value e)
       | None => do logger ERROR (AttributeNotFound attribute) then ret VNone
       end.

(** [describe]: the description of a header attribute. *)
Definition describe (attribute : Py.ustr) : M (option string) :=
  let attribute := Py.upper attribute in
  let* h := read header in
  if bool_decide (h = ∅)
  then do logger WARNING HeaderNotInitialized then ret None
  else match item h attribute with
       | Some e => ret (Some (description e))
       | None => do logger ERROR (AttributeNotFound attribute) then ret None
       end.

(** The value [get] returns for an attribute, read off the header. *)
Definition attr (s : PolarImage) (attribute : Py.ustr) : Value :=
  match item (header s) (Py.upper attribute) with
  | Some e => value e
  | None => VNone
  end.

(** [auto_type]: integer, then float, then boolean, then the string. *)
Definition auto_type (s : string) : M Value :=
  if Py.isdigit s
  then let* z := lift (Py.int_of_str s) in
       do logger DEBUG (Converted s TInt) then
       ret (VInt z)
  else
    let* r := try_except (let* f := lift (Py.float_of_str s) in
                   do logger DEBUG (Converted s TFloat) then
                   ret (Some (VFloat f)))
                  (fun e => match e with
                            | ValueError => ret None
                            | _ => raise e
                            end) in
    match r with
    | Some v => ret v
    | None =>
        if bool_decide (Py.lower s = "true") || bool_decide (Py.lower s = "false")
        then let bool_val := bool_decide (Py.lower s = "true") in
             do logger DEBUG (Converted s TBool) then
             ret (VBool bool_val)
        else do logger DEBUG (ReturningOriginal s) then
             ret (VStr s)
    end.

(** [_process_file]: the header and the image part of the content of the
    file ([None] when it cannot be read). *)
Definition _process_file (file : option (list byte))
  : M (option (list byte) * option (list byte)) :=
  match file with
  | None => do logger CRITICAL ErrorOpeningFile then ret (None, None)
  | Some content =>
      let eoh_marker := bytes_of "EOH" in
      let eoh_index := Py.find eoh_marker content in
      if eoh_index =? -1 then ret (None, None)
      else
        let crlf := [x0d; x0a] in
        let eoh_end_index :=
          eoh_index + Py.find crlf (Py.slice_from eoh_index content) + 2 in
        do update (set_eoh (Some eoh_end_index)) then
        ret (Some (Py.slice_to eoh_end_index content),
             Some (Py.slice_from eoh_end_index content))
  end.

(** One line of the header, given the dictionary and the list of keys
    without a description built so far (the body of the loop of
    [_process_header]). *)
Definition process_line (line : list byte)
    (acc : gmap string HeaderEntry * list string)
  : M (gmap string HeaderEntry * list string) :=
  let '(header_dict, desc_not_found) := acc in
  if Py.startswith (bytes_of "CC") line || Py.startswith (bytes_of "**") line
  then ret acc
  else
    let skipped (acc' : gmap string HeaderEntry * list string) (e : exn) :=
      match e with
      | ValueError =>
          let misc := Py.split1 (latin1 line) in
          do logger DEBUG (FoundNoValue misc) then ret acc'
      | _ => raise e
      end in
    let text := Py.normalize_spaces (latin1 line) in
    match Py.split1 text with
    | [key; value] =>
        if bool_decide (value = "") then ret acc
        else
          let cc_index := Py.find_str "CC" value in
          if negb (cc_index =? -1)
          then
            let new_value := Py.strip (Py.str_to cc_index value) in
            let description := Py.strip (Py.str_from (cc_index + 2) value) in
            try_except (let* v := auto_type new_value in
                 ret (<[key := mkEntry v description]> header_dict, desc_not_found))
                (skipped acc)
          else
            let desc_not_found := desc_not_found ++ [key] in
            try_except (let* v := auto_type (Py.strip value) in
                 ret (<[key := mkEntry v "N/A"]> header_dict, desc_not_found))
                (skipped (header_dict, desc_not_found))
    | _ => skipped acc ValueError
    end.

Fixpoint process_lines (lines : list (list byte))
    (acc : gmap string HeaderEntry * list string)
  : M (gmap string HeaderEntry * list string) :=
  match lines with
  | [] => ret acc
  | line :: rest => let* acc' := process_line line acc in process_lines rest acc'
  end.

(** The value of an attribute that holds an integer or [None]. *)
Definition int_or_none (o : option Z) : Value :=
  match o with Some z => VInt z | None => VNone end.

(** [_process_header]: the dictionary of the header lines, with the entry
    [EOH] added last. *)
Definition _process_header (header_content : list byte)
  : M (gmap string HeaderEntry) :=
  let header_lines := Py.drop_last (Py.split [x0d; x0a] header_content) in
  let* '(header_dict, desc_not_found) := process_lines header_lines (∅, []) in
  let* e := read eoh in
  let header_dict :=
    <["EOH" := mkEntry (int_or_none e) "End of Header character position"]>
      header_dict in
  do logger DEBUG (DescriptionNotFound desc_not_found) then
  do logger DEBUG HeaderCreated then
  ret header_dict.

(** [get_image_size]: the number written in the first characters of the
    image part, [0] when they are not a number. *)
Definition get_image_size (image_content : list byte) : M Z :=
  try_except (let* dabit := get "DABIT" in
       let chars_describing_image_bytes := if eq_int dabit 12 then 10 else 6 in
       lift (Py.int_of_str
               (latin1 (Py.slice_to chars_describing_image_bytes image_content))))
      (fun e => match e with
                | ValueError => do logger CRITICAL ErrorDecodingImageSize then ret 0
                | KeyError => do logger CRITICAL ErrorAccessingDabit then ret 0
                | _ => raise e
                end).

(** [_process_image]: records the image size and the image data. *)
Definition _process_image (image_content : list byte) : M (list byte) :=
  try_except (let* size := get_image_size image_content in
       do update (set_image_size size) then
       do logger DEBUG (FoundImageSize size) then
       let chars_describing_image_bytes := 10 in
       let data := Py.slice_from chars_describing_image_bytes image_content in
       do update (set_image_data (Some data)) then
       ret data)
      (fun _ => do logger CRITICAL ErrorProcessingImage then ret []).

(** The [try] block of [get_image_array]. *)
Definition get_image_array_body : M Np.ndarray :=
  let* fifo := get "FIFO" in
  let* no_of_samples_in_range := lift (int_of fifo) in
  let* dabit := get "DABIT" in
  let* dabit_value := lift (int_of dabit) in
  let* size := read image_size in
  let* layout :=
    if dabit_value =? 12
    then let* no_of_rays := lift (floordiv size (2 * no_of_samples_in_range)) in
         ret (Some (no_of_rays, Np.uint16, Some 4095))
    else if dabit_value =? 8
    then let* no_of_rays := lift (floordiv size no_of_samples_in_range) in
         ret (Some (no_of_rays, Np.uint8, None))
    else ret None in
  match layout with
  | None =>
      do logger ERROR (UnsupportedDabit dabit_value) then ret Np.empty
  | Some (no_of_rays, dtype, mask) =>
      let* data := read image_data in
      let* buf := match data with
                  | Some b => lift (Np.frombuffer b dtype)
                  | None => raise TypeError
                  end in
      let* image_array := lift (Np.reshape buf no_of_rays no_of_samples_in_range) in
      let image_array := match mask with
                         | Some m => Np.band m image_array
                         | None => image_array
                         end in
      let* image_array :=
        if dabit_value =? 8 then lift (Np.set_column0 0 image_array)
        else ret image_array in
      do logger INFO (CreatedImageArray (Np.shape image_array)) then
      ret image_array
  end.

(** [get_image_array]: the matrix of samples, or an empty array when the
    layout is unsupported or anything fails. *)
Definition get_image_array : M Np.ndarray :=
  try_except get_image_array_body
    (fun _ => do logger CRITICAL ErrorCreatingImageArray then ret Np.empty).

(** [__init__]: the stages in turn, each stopping the construction when it
    has nothing to hand on. *)
Definition __init__ (file : option (list byte)) : M unit :=
  let* r := try_except (let* p := _process_file file in ret (Some p))
                (fun _ => do logger CRITICAL ErrorProcessingFile then ret None) in
  match r with
  | None => ret tt
  | Some (header_content, image_content) =>
      if truthy header_content
      then
        let* h := _process_header (default [] header_content) in
        do update (set_header h) then
        if truthy image_content
        then
          let* d := _process_image (default [] image_content) in
          do update (set_image_data (Some d)) then
          let* data := read image_data in
          if truthy data
          then
            let* a := get_image_array in
            do update (set_image_array (Some a)) then
            logger INFO Processed
          else logger CRITICAL ImageDataNotFound
        else logger CRITICAL ImageContentNotFound
      else logger CRITICAL EohMarkerNotFound
  end.

(** The attributes before the body of [__init__] runs. *)
Definition fresh : PolarImage := mkPolarImage 0 ∅ None None None [].

(** [PolarImage(file_path)]: the object after construction. *)
Definition new (file : option (list byte)) : PolarImage := snd (__init__ file fresh).

(** ** Rendering *)

(** The angular offset of the plot: minus [degrees] converted to radians,
    or a quarter turn. *)
Inductive Offset :=
| BowOffset (degrees : Z)
| QuarterTurn.

(** What [render] hands to the plotting library: the matrix drawn (one
    row per ray, before the transposition), the number of ray angles
    spread evenly over the full turn and of pixel positions, the colour
    map and its fixed normalisation, and the direction and offset of the
    angle axis. *)
Record Figure := mkFigure {
  mesh : Np.ndarray;
  rays_angles : nat;
  pixel_positions : nat;
  cmap : string;
  norm : Z * Z;
  theta_direction : Z;
  theta_offset : Offset
}.

(** The width of the blanked near range (the computation at the head of
    [render]): [int(np.ceil(sdrng / 3.75)) * 2] at 40 MHz, and
    [int(np.ceil(sdrng / (3e8 / (2 * sfreq * 1e6)))) * 2] otherwise. *)
Definition pixels_to_omit (sampling_frequency sampling_delay_range : Z) : result Z :=
  if sampling_frequency =? 40
  then match Py.float_of_int sampling_delay_range with
       | Raise e => Raise e
       | Ok d =>
           match Py.truediv d Py.f3_75 with
           | Raise e => Raise e
           | Ok q =>
               match Py.int_of_float (Py.ceil q) with
               | Raise e => Raise e
               | Ok n => Ok (n * 2)
               end
           end
       end
  else
    let c := Py.f3e8 in
    match Py.float_of_int (2 * sampling_frequency) with
    | Raise e => Raise e
    | Ok f2 =>
        match Py.truediv c (Py.fmul f2 Py.f1e6) with
        | Raise e => Raise e
        | Ok meters_per_pixel =>
            match Py.float_of_int sampling_delay_range with
            | Raise e => Raise e
            | Ok d =>
                match Py.truediv d meters_per_pixel with
                | Raise e => Raise e
                | Ok q =>
                    match Py.int_of_float (Py.ceil q) with
                    | Raise e => Raise e
                    | Ok n => Ok (n * 2)
                    end
                end
            end
        end
    end.

(** [a.shape[1]]. *)
Definition shape1 (a : Np.ndarray) : result nat :=
  match a with
  | Np.Arr1 _ => Raise IndexError
  | Np.Arr2 n _ => Ok n
  end.

(** [render]: widens the stored matrix by the blanked columns and builds
    the polar plot of it. The calls into the plotting library, which stand
    between the widening and the reading of the bow-to-radar angle, are
    outside the model and taken to return: what is stated of [render]
    below concerns calls that return, failures that come before anything
    is drawn, the fact of a failure, or the state of the object. *)
Definition render (orient toggle_direction : bool) (cmap : string) : M Figure :=
  let* sfreq := get "SFREQ" in
  let* sampling_frequency := lift (int_of sfreq) in
  let* sdrng := get "SDRNG" in
  let* sampling_delay_range := lift (int_of sdrng) in
  let* pixels_to_omit := lift (pixels_to_omit sampling_frequency sampling_delay_range) in
  let* dabit := get "DABIT" in
  let HIGHEST_BRIGHTNESS := if eq_int dabit 12 then 4095 else 255 in
  let additional_columns := pixels_to_omit in
  let* a := read image_array in
  let* old := match a with
              | Some arr => ret arr
              | None => raise AttributeError
              end in
  let* new_columns :=
    lift (Np.full (Np.shape0 old) additional_columns HIGHEST_BRIGHTNESS) in
  let* widened := lift (Np.concatenate1 new_columns old) in
  do update (set_image_array (Some widened)) then
  let* width := lift (shape1 widened) in
  let direction := if toggle_direction then -1 else 1 in
  let* offset :=
    if orient
    then let* bo2ra := get "BO2RA" in
         let* doubled := lift (twice bo2ra) in
         let* degrees := lift (int_of doubled) in
         ret (BowOffset degrees)
    else ret QuarterTurn in
  ret (mkFigure widened (Np.shape0 widened) width cmap (0, 4095) direction offset).

(** [if not output_path]: the default path is taken when no path is
    given, and also when the path given is the empty text. *)
Definition no_path (output_path : option string) : bool :=
  match output_path with
  | Some (String _ _) => false
  | _ => true
  end.

(** [saveto]: announces the default path when it takes it, then renders
    with the orientation of the header and the angles increasing, and
    writes the figure. The result of the model is the figure written: the
    path, which the method returns as a text, and the file system are
    outside the model. *)
Definition saveto (output_path : option string) : M Figure :=
  do (if no_path output_path then logger INFO SavingTo else ret tt) then
  render true false "Greys_r".

(** A written PNG file: the picture, and the header given to
    [json.dumps] for the text field [json_data]. *)
Record Png := mkPng {
  picture : Figure;
  json_data : gmap string HeaderEntry
}.

(** [save_with_metadata]: renders like [saveto] and stores the header
    beside the picture. *)
Definition save_with_metadata (output_path : option string) : M Png :=
  do (if no_path output_path then logger INFO SavingTo else ret tt) then
  let* fig := render true false "Greys_r" in
  let* h := read header in
  ret (mkPng fig h).

(** ** Notions used in the statements *)

(** [s] with the records [l] added to the log. *)
Definition with_log (s : PolarImage) (l : list (Level * Message)) : PolarImage :=
  mkPolarImage (image_size s) (header s) (image_data s) (eoh s) (image_array s)
    (log s ++ l).

(** [s'] is [s] with further records in the log. *)
Definition logged (s s' : PolarImage) : Prop := exists l, s' = with_log s l.

(** A session whose header announces four bits per sample. *)
Definition header4 : gmap string HeaderEntry :=
  <["DABIT" := mkEntry (VInt 4) "bits"]> (<["FIFO" := mkEntry (VInt 2) "samples"]> ∅).

Definition session4 : PolarImage :=
  mkPolarImage 4 header4 (Some [x01; x02; x03; x04]) (Some 20) None [].

(** The image size [get_image_size] arrives at: the number in the first
    ten (DABIT 12) or six characters of the image part, or [0]. *)
Definition announced_size (s : PolarImage) (image_content : list byte) : Z :=
  let width := if eq_int (attr s "DABIT") 12 then 10 else 6 in
  match Py.int_of_str (latin1 (Py.slice_to width image_content)) with
  | Ok z => z
  | Raise _ => 0
  end.

(** *** Sample captures *)

Definition crlf : list byte := [x0d; x0a].

(** The header lines of a capture, each closed by the line terminator,
    and the marker line. *)
Definition header_text (lines : list string) : list byte :=
  concat (map (fun l => bytes_of l ++ crlf) lines) ++ bytes_of "EOH" ++ crlf.

(** A twelve-bit capture of two samples per ray whose size prefix
    announces eight bytes, followed by eight bytes. *)
Definition capture12 : list byte :=
  header_text ["DABIT 12 CC bits per sample"; "FIFO 2 CC samples per ray";
               "SFREQ 40 CC sampling frequency"; "SDRNG 15 CC sampling delay";
               "BO2RA 10 CC bow to radar"]
  ++ bytes_of "0000000008" ++ [x01; x10; xff; xff; x00; x00; x34; x12].



(** An eight-bit capture of four samples per ray: a six-digit prefix that
    announces eight bytes, followed by eight bytes. *)
Definition region8 : list byte :=
  bytes_of "000008" ++ [x01; x02; x03; x04; x05; x06; x07; x08].

Definition capture8 : list byte :=
  header_text ["DABIT 8 CC bits per sample"; "FIFO 4 CC samples per ray"] ++ region8.

(** An eight-bit capture whose size prefix reads [-8]. *)
Definition capture_negative_size : list byte :=
  header_text ["DABIT 8 CC bits per sample"; "FIFO 4 CC samples per ray"]
  ++ bytes_of "-00008" ++ bytes_of "    "
  ++ [x01; x02; x03; x04; x05; x06; x07; x08].

(** An eight-bit capture whose size prefix is not a number. *)
Definition region_bad : list byte :=
  bytes_of "abcdef" ++ [x01; x02; x03; x04; x05; x06; x07; x08].

Definition capture_bad : list byte :=
  header_text ["DABIT 8 CC bits per sample"; "FIFO 4 CC samples per ray"] ++ region_bad.

(** The session of [capture12] before the image part is looked at. *)
Definition parsed12 : PolarImage :=
  mkPolarImage 0
    (<["DABIT" := mkEntry (VInt 12) "bits per sample"]>
       (<["FIFO" := mkEntry (VInt 2) "samples per ray"]> ∅))
    None (Some 64) None [].

(** A session with eight-bit data ready to be decoded. *)
Definition session8 : PolarImage :=
  mkPolarImage 4
    (<["DABIT" := mkEntry (VInt 8) "bits per sample"]>
       (<["FIFO" := mkEntry (VInt 2) "samples per ray"]> ∅))
    (Some [x01; x02; x03; x04]) (Some 64) None [].

(** The session of [capture_bad] before the image part is looked at. *)
Definition parsed8 : PolarImage :=
  mkPolarImage 0
    (<["DABIT" := mkEntry (VInt 8) "bits per sample"]>
       (<["FIFO" := mkEntry (VInt 4) "samples per ray"]> ∅))
    None (Some 62) None [].

(** Sequencing of results. *)
Definition and_then {A B} (r : result A) (k : A -> result B) : result B :=
  match r with
  | Ok a => k a
  | Raise e => Raise e
  end.

(** The brightest value of the bit depth of a session. *)
Definition highest_brightness (s : PolarImage) : Z :=
  if eq_int (attr s "DABIT") 12 then 4095 else 255.

(** A matrix with [p] columns of the value [v] put before its own. *)
Definition widened (p : nat) (v : Z) (n : nat) (rows : list (list Z)) : Np.ndarray :=
  Np.Arr2 (p + n) (map (app (repeat v p)) rows).

(** The integers from [0] up to [n], and a test over all of them. *)
Definition upto (n : nat) : list Z := map Z.of_nat (seq 0 (S n)).

(** A twelve-bit capture with no sampling delay. *)
Definition capture_nodelay : list byte :=
  header_text ["DABIT 12 CC bits per sample"; "FIFO 2 CC samples per ray";
               "SFREQ 40 CC sampling frequency"; "SDRNG 0 CC sampling delay";
               "BO2RA 10 CC bow to radar"]
  ++ bytes_of "0000000008" ++ [x01; x10; xff; xff; x00; x00; x34; x12].

(** *** Digit strings *)

(** A non-empty string of the decimal digits [0]..[9]. *)
Definition all_decimal (s : string) : bool :=
  match Py.chars s with
  | [] => false
  | l => forallb Py.is_decimal l
  end.

(** The text of one character, the superscript two of Latin-1. *)
Definition superscript_two : string := String (Py.chr 178) "".

(** *** What a computation can do *)

(** [m] touches nothing but the log. *)
Definition only_logs {A} (m : M A) : Prop :=
  forall s, exists l, snd (m s) = with_log s l.

(** [m] never raises. *)
Definition returns {A} (m : M A) : Prop :=
  forall s, exists a, fst (m s) = Ok a.

(** Whatever [m] raises satisfies [P]. *)
Definition raises_only {A} (P : exn -> Prop) (m : M A) : Prop :=
  forall s e, fst (m s) = Raise e -> P e.

(** [s'] has the size, header, image data and marker position of [s]. *)
Definition same_capture (s s' : PolarImage) : Prop :=
  image_size s' = image_size s /\ header s' = header s /\
  image_data s' = image_data s /\ eoh s' = eoh s.

(** [m] changes at most the stored matrix and the log. *)
Definition keeps_capture {A} (m : M A) : Prop :=
  forall s, same_capture s (snd (m s)).

(** A twelve-bit capture with no bow-to-radar angle in its header. *)
Definition capture_nobow : list byte :=
  header_text ["DABIT 12 CC bits per sample"; "FIFO 2 CC samples per ray";
               "SFREQ 40 CC sampling frequency"; "SDRNG 15 CC sampling delay"]
  ++ bytes_of "0000000008" ++ [x01; x10; xff; xff; x00; x00; x34; x12].

(** The capture [capture12] with a sampling frequency of zero. *)
Definition capture_nofreq : list byte :=
  header_text ["DABIT 12 CC bits per sample"; "FIFO 2 CC samples per ray";
               "SFREQ 0 CC sampling frequency"; "SDRNG 15 CC sampling delay";
               "BO2RA 10 CC bow to radar"]
  ++ bytes_of "0000000008" ++ [x01; x10; xff; xff; x00; x00; x34; x12].

(** The exact blanking width at 40 MHz: twice the delay over 3.75,
    rounded up. *)
Definition exact_width_40 (sdrng : Z) : Z := 2 * ((4 * sdrng + 14) / 15).

(** Whether [pixels_to_omit] at 40 MHz gives the exact width. *)
Definition width_40_is_exact (sdrng : Z) : bool :=
  match pixels_to_omit 40 sdrng with
  | Ok p => p =? exact_width_40 sdrng
  | Raise _ => false
  end.

(** The number of bytes of one sample. *)
Definition sample_bytes (dabit_value : Z) : nat := if dabit_value =? 12 then 2 else 1.

(** ** The inspector window *)

Module Inspector.

(** The keys shown in each group of [add_key_value_pairs]. *)
Definition location_keys : list string := ["LAT"; "LONG"].

Definition general_keys : list string :=
  ["OWNER"; "VINFO"; "VERSN"; "TOWER"; "IDENT"; "USER"; "DATE"; "TIME"; "ZONE"].

Definition technical_keys : list string :=
  ["TMINT"; "NMEAN"; "ANALM"; "AMINT"; "NIPOL"; "NUMRE"; "RPT"; "SDRNG"; "SFREQ";
   "FIFO"; "BO2RA"; "HDGDL"; "GYROC"; "GYROV"; "VGAIN"; "CMPOFF"].

Definition environmental_keys : list string :=
  ["WDEPF"; "P_DEP"; "PDEPV"; "SHIPR"; "SHIRV"; "SHIPS"; "SHISV"; "SPTWL"; "SPWLV";
   "SPTWT"; "SPWTV"; "WINDS"; "WINSV"; "WINDR"; "WINRV"; "WINDT"; "WINDH"; "WATSP";
   "WATSV"].

Definition additional_keys : list string := ["DABIT"; "F0001"; "RPM"; "EOH"].

(** The loop that fills a grid [width] keys wide: each key of the list
    that the dictionary holds is put at the current row and column (its
    label in grid column [2 * col], its text box in [2 * col + 1]), and the
    column then moves on, wrapping to the next row at [width]. *)
Fixpoint fill_grid (width : nat) (keys : list string) (data_dict : gmap string HeaderEntry)
    (row col : nat) : list (string * nat * nat) :=
  match keys with
  | [] => []
  | key :: rest =>
      match data_dict !! key with
      | Some _ =>
          (key, row, col)
          :: (if (width <=? col + 1)%nat
              then fill_grid width rest data_dict (row + 1) 0
              else fill_grid width rest data_dict row (col + 1))
      | None => fill_grid width rest data_dict row col
      end
  end.

(** The location and environmental groups of [add_key_value_pairs]. *)
Definition location_grid (data_dict : gmap string HeaderEntry) : list (string * nat * nat) :=
  fill_grid 2 location_keys data_dict 0 0.

Definition environmental_grid (data_dict : gmap string HeaderEntry)
  : list (string * nat * nat) :=
  fill_grid 5 environmental_keys data_dict 0 0.

(** The keys of a list that the dictionary holds, in the order of the list
    (the technical and additional groups add one widget for each). *)
Definition shown (keys : list string) (data_dict : gmap string HeaderEntry) : list string :=
  filter (fun key => is_Some (data_dict !! key)) keys.

End Inspector.

(** *** Unsupported bit depths *)

(** [int(v) == n], false when the conversion fails. *)
Definition converts_to (v : Value) (n : Z) : bool :=
  match int_of v with
  | Ok d => d =? n
  | Raise _ => false
  end.

(** The records of a look-up that finds nothing. *)
Definition lookup_record (r : Level * Message) : bool :=
  match r with
  | (WARNING, HeaderNotInitialized) => true
  | (ERROR, AttributeNotFound _) => true
  | _ => false
  end.

(** The records that name an unsupported bit depth. *)
Definition unsupported_record (r : Level * Message) : bool :=
  match r with
  | (_, UnsupportedDabit _) => true
  | _ => false
  end.

(** An eight-bit layout announced with the bit depth [8.5]: the size is
    read from six characters, the payload starts at the eleventh byte. *)
Definition capture_dabit_8_5 : list byte :=
  header_text ["DABIT 8.5 CC bits per sample"; "FIFO 2 CC samples per ray"]
  ++ bytes_of "000004" ++ bytes_of "    " ++ [x01; x02; x03; x04].

(** A session that announces four bits per sample and no number of
    samples per ray. *)
Definition session4_without_fifo : PolarImage :=
  mkPolarImage 4 (<["DABIT" := mkEntry (VInt 4) "bits"]> ∅)
    (Some [x01; x02; x03; x04]) (Some 20) None [].

(** *** The blanking width in the words of the specification *)






(** * Properties of the reader *)

(** ** Running computations *)

Lemma bind_ok {A B} (m : M A) (k : A -> M B) s a s' :
  m s = (Ok a, s') -> bind m k s = k a s'.
Proof. intros H. unfold bind. now rewrite H. Qed.

Lemma bind_raise {A B} (m : M A) (k : A -> M B) s e s' :
  m s = (Raise e, s') -> bind m k s = (Raise e, s').
Proof. intros H. unfold bind. now rewrite H. Qed.

Lemma try_except_ok {A} (m : M A) h s a s' :
  m s = (Ok a, s') -> try_except m h s = (Ok a, s').
Proof. intros H. unfold try_except. now rewrite H. Qed.

Lemma try_except_raise {A} (m : M A) h s e s' :
  m s = (Raise e, s') -> try_except m h s = h e s'.
Proof. intros H. unfold try_except. now rewrite H. Qed.

Lemma with_log_nil s : with_log s [] = s.
Proof. destruct s; unfold with_log; simpl. now rewrite app_nil_r. Qed.

Lemma with_log_app s l1 l2 : with_log (with_log s l1) l2 = with_log s (l1 ++ l2).
Proof. unfold with_log; simpl. now rewrite app_assoc. Qed.

Lemma logged_refl s : logged s s.
Proof. exists []. now rewrite with_log_nil. Qed.

Lemma logged_trans s1 s2 s3 : logged s1 s2 -> logged s2 s3 -> logged s1 s3.
Proof.
  intros [l1 ->] [l2 ->]. exists (l1 ++ l2). apply with_log_app.
Qed.

Lemma logged_add r s : logged s (add_log r s).
Proof. now exists [r]. Qed.

Lemma logged_attr s s' a : logged s s' -> attr s' a = attr s a.
Proof. now intros [l ->]. Qed.

(** ** [get] *)

Lemma item_empty name : item ∅ name = None.
Proof. unfold item. destruct (Py.to_latin1 name); [apply lookup_empty | reflexivity]. Qed.

Lemma get_found a st : attr st a <> VNone -> get a st = (Ok (attr st a), st).
Proof.
  unfold get, attr, bind, read. intros H.
  destruct (item (header st) (Py.upper a)) as [e|] eqn:E; [|congruence].
  case_bool_decide as Hh; [|reflexivity].
  rewrite Hh, item_empty in E. discriminate.
Qed.

Lemma get_logs a st : exists l, get a st = (Ok (attr st a), with_log st l).
Proof.
  unfold get, attr, bind, read, logger, update, ret.
  case_bool_decide as Hh.
  - rewrite Hh, item_empty. now eexists [_].
  - destruct (item (header st) (Py.upper a)) as [e|].
    + exists []. now rewrite with_log_nil.
    + now eexists [_].
Qed.

Lemma get_run a st : exists st', get a st = (Ok (attr st a), st') /\ logged st st'.
Proof. destruct (get_logs a st) as [l H]. exists (with_log st l). split; [exact H | now exists l]. Qed.

Lemma int_of_not_none v z : int_of v = Ok z -> v <> VNone.
Proof. intros H ->. discriminate. Qed.

Lemma get_int a st z :
  int_of (attr st a) = Ok z -> get a st = (Ok (attr st a), st).
Proof. intros H. apply get_found. eapply int_of_not_none, H. Qed.

(** ** [get_image_array] *)

(** Whatever happens in the [try] block, [get_image_array] returns. *)
Lemma get_image_array_handles st :
  fst (get_image_array st) =
  match fst (get_image_array_body st) with
  | Ok a => Ok a
  | Raise _ => Ok Np.empty
  end.
Proof.
  unfold get_image_array, try_except.
  destruct (get_image_array_body st) as [[a|e] s']; reflexivity.
Qed.

(** The block on a header whose [FIFO] and [DABIT] convert to integers. *)
Lemma get_image_array_body_unsupported st n d :
  int_of (attr st "FIFO") = Ok n -> int_of (attr st "DABIT") = Ok d ->
  d <> 8 -> d <> 12 ->
  get_image_array_body st = (Ok Np.empty, add_log (ERROR, UnsupportedDabit d) st).
Proof.
  intros Hn Hd H8 H12. unfold get_image_array_body.
  rewrite (bind_ok _ _ _ _ _ (get_int _ _ _ Hn)).
  unfold lift at 1. rewrite Hn. unfold bind at 1.
  rewrite (bind_ok _ _ _ _ _ (get_int _ _ _ Hd)).
  unfold lift at 1. rewrite Hd. unfold bind at 1.
  unfold read at 1. unfold bind at 1.
  destruct (Z.eqb_spec d 12) as [|_]; [contradiction|].
  destruct (Z.eqb_spec d 8) as [|_]; [contradiction|].
  reflexivity.
Qed.

Lemma get_lookup_logs a st :
  exists l, get a st = (Ok (attr st a), with_log st l) /\ forallb lookup_record l = true.
Proof.
  unfold get, attr, bind, read, logger, update, ret.
  case_bool_decide as Hh.
  - rewrite Hh, item_empty. now eexists [_].
  - destruct (item (header st) (Py.upper a)) as [e|].
    + exists []. now rewrite with_log_nil.
    + now eexists [_].
Qed.

Lemma unsupported_dabit_run st :
  converts_to (attr st "DABIT") 8 = false ->
  converts_to (attr st "DABIT") 12 = false ->
  exists l,
    get_image_array st = (Ok Np.empty, with_log st l) /\
    match int_of (attr st "FIFO"), int_of (attr st "DABIT") with
    | Ok _, Ok d => l = [(ERROR, UnsupportedDabit d)]
    | _, _ =>
        exists l', l = l' ++ [(CRITICAL, ErrorCreatingImageArray)] /\
                   forallb lookup_record l' = true
    end.
Proof.
  unfold converts_to. intros H8 H12.
  destruct (int_of (attr st "FIFO")) as [n|e] eqn:Hn.
  - destruct (int_of (attr st "DABIT")) as [d|e] eqn:Hd.
    + apply Z.eqb_neq in H8, H12. exists [(ERROR, UnsupportedDabit d)].
      split; [|reflexivity]. unfold get_image_array.
      erewrite try_except_ok; [reflexivity|].
      now apply get_image_array_body_unsupported with (n := n).
    + destruct (get_lookup_logs "DABIT" st) as (l & Hg & Hl).
      exists (l ++ [(CRITICAL, ErrorCreatingImageArray)]). split; [|eauto].
      unfold get_image_array. erewrite try_except_raise.
      * unfold logger, update, bind, ret. simpl. now rewrite <- with_log_app.
      * unfold get_image_array_body.
        rewrite (bind_ok _ _ _ _ _ (get_int _ _ _ Hn)).
        unfold lift at 1. rewrite Hn. unfold bind at 1.
        rewrite (bind_ok _ _ _ _ _ Hg).
        unfold lift at 1. rewrite Hd. reflexivity.
  - destruct (get_lookup_logs "FIFO" st) as (l & Hg & Hl).
    exists (l ++ [(CRITICAL, ErrorCreatingImageArray)]). split; [|eauto].
    unfold get_image_array. erewrite try_except_raise.
    + unfold logger, update, bind, ret. simpl. now rewrite <- with_log_app.
    + unfold get_image_array_body. rewrite (bind_ok _ _ _ _ _ Hg).
      unfold lift at 1. rewrite Hn. reflexivity.
Qed.

(** C6, as the code has it. What decides is [int(DABIT)], not the DABIT
    value: whenever it is neither 8 nor 12 (the conversion may also fail),
    [get_image_array] returns the empty array [np.array([])], guesses no
    layout and touches nothing but the log. When FIFO, which is read
    first, and DABIT both convert, the log gains the one error record that
    names the unsupported value; otherwise it gains the records of the
    failed look-up, if any, and the critical record of the failed array
    creation. *)
Theorem unsupported_dabit_gives_empty_array st :
  converts_to (attr st "DABIT") 8 = false ->
  converts_to (attr st "DABIT") 12 = false ->
  exists l,
    get_image_array st = (Ok Np.empty, with_log st l) /\
    match int_of (attr st "FIFO"), int_of (attr st "DABIT") with
    | Ok _, Ok d => l = [(ERROR, UnsupportedDabit d)]
    | _, _ =>
        exists l', l = l' ++ [(CRITICAL, ErrorCreatingImageArray)] /\
                   forallb lookup_record l' = true
    end.
Proof. apply unsupported_dabit_run. Qed.

Lemma unsupported_dabit_gives_empty_array_witness :
  exists l,
    get_image_array session4 = (Ok Np.empty, with_log session4 l) /\
    match int_of (attr session4 "FIFO"), int_of (attr session4 "DABIT") with
    | Ok _, Ok d => l = [(ERROR, UnsupportedDabit d)]
    | _, _ =>
        exists l', l = l' ++ [(CRITICAL, ErrorCreatingImageArray)] /\
                   forallb lookup_record l' = true
    end.
Proof.
  apply (unsupported_dabit_gives_empty_array session4); vm_compute; reflexivity.
Defined.

(** C6 as stated fails. The DABIT value [8.5] of [capture_dabit_8_5] is
    neither 8 nor 12, yet [int] truncates it to 8 and the capture is
    decoded as eight-bit data, into a matrix of two rays, with no record of
    an unsupported value. And on [session4_without_fifo], whose DABIT is
    4, the array is empty but no record names the unsupported value: the
    look-up of FIFO fails first. *)
Lemma truncated_dabit_counterexample :
  let s := new (Some capture_dabit_8_5) in
  let t := snd (get_image_array session4_without_fifo) in
  attr s "DABIT" = VFloat (Py.float_of_decimal false 85 (-1)) /\
  eq_int (attr s "DABIT") 8 = false /\ eq_int (attr s "DABIT") 12 = false /\
  image_array s = Some (Np.Arr2 2 [[0; 2]; [0; 4]]) /\
  existsb unsupported_record (log s) = false /\
  attr session4_without_fifo "DABIT" = VInt 4 /\
  fst (get_image_array session4_without_fifo) = Ok Np.empty /\
  existsb unsupported_record (log t) = false.
Proof. vm_compute. repeat split. Qed.

(** ** numpy arrays *)

Lemma chunks_length n k l : length (Np.chunks n k l) = k.
Proof. revert l. induction k as [|k IH]; intros l; simpl; [reflexivity|]. now rewrite IH. Qed.

Lemma chunks_rows n k l :
  (k * n <= length l)%nat -> Forall (fun row => length row = n) (Np.chunks n k l).
Proof.
  revert l. induction k as [|k IH]; intros l Hl; simpl; constructor.
  - rewrite length_take. lia.
  - apply IH. rewrite length_drop. lia.
Qed.

Lemma chunks_lookup n k l i :
  (i < k)%nat -> Np.chunks n k l !! i = Some (take n (drop (i * n) l)).
Proof.
  revert l i. induction k as [|k IH]; intros l i Hi; [lia|].
  destruct i as [|i]; simpl; [reflexivity|].
  rewrite IH by lia. now rewrite drop_drop, (Nat.add_comm n).
Qed.

Lemma chunks_elem n k l i j row x :
  Np.chunks n k l !! i = Some row -> row !! j = Some x ->
  l !! (i * n + j)%nat = Some x.
Proof.
  intros Hrow Hx.
  assert (Hi : (i < k)%nat).
  { apply lookup_lt_Some in Hrow. now rewrite chunks_length in Hrow. }
  rewrite chunks_lookup in Hrow by exact Hi. injection Hrow as <-.
  apply lookup_take_Some in Hx as [Hx _]. now rewrite lookup_drop in Hx.
Qed.

Lemma chunks_elems_in n k l :
  Forall (fun row => Forall (fun x => x ∈ l) row) (Np.chunks n k l).
Proof.
  apply Forall_lookup. intros i row Hrow. apply Forall_lookup. intros j x Hx.
  apply list_elem_of_lookup. eexists. eapply chunks_elem; eassumption.
Qed.

(** Two-at-a-time induction on lists. *)
Lemma list_pair_ind {A} (P : list A -> Prop) :
  P [] -> (forall a, P [a]) -> (forall a b l, P l -> P (a :: b :: l)) ->
  forall l, P l.
Proof.
  intros H0 H1 H2.
  assert (H : forall l, P l /\ forall a, P (a :: l)).
  { induction l as [|b l [IH1 IH2]]; split; auto. }
  intros l. apply H.
Qed.

Lemma words16_length l ws :
  Np.words16 l = Some ws -> length l = (2 * length ws)%nat.
Proof.
  revert ws. induction l as [| a | a b l IH] using list_pair_ind; intros ws; simpl.
  - now intros [= <-].
  - discriminate.
  - destruct (Np.words16 l) as [ws'|]; simpl; [|discriminate].
    intros [= <-]. simpl. rewrite (IH ws' eq_refl). lia.
Qed.




Lemma byte_val_range b : 0 <= Np.byte_val b <= 255.
Proof.
  unfold Np.byte_val. pose proof (Byte.to_N_bounded b). lia.
Qed.

Lemma reshape_ok l r c a :
  Np.reshape l r c = Ok a ->
  exists n k, a = Np.Arr2 n (Np.chunks n k l) /\ (k * n = length l)%nat.
Proof.
  unfold Np.reshape.
  destruct (Z.ltb_spec r 0) as [Hr|Hr]; destruct (Z.ltb_spec c 0) as [Hc|Hc]; simpl.
  - discriminate.
  - destruct (Z.eqb_spec c 0) as [|Hc0]; [discriminate|]. simpl.
    destruct (Z.eqb_spec (Z.of_nat (length l) mod c) 0) as [Hm|]; [|discriminate].
    intros [= <-]. do 2 eexists. split; [reflexivity|].
    apply Z.div_exact in Hm; [|lia].
    assert (0 <= Z.of_nat (length l) / c) by (apply Z.div_pos; lia). nia.
  - destruct (Z.eqb_spec r 0) as [|Hr0]; [discriminate|]. simpl.
    destruct (Z.eqb_spec (Z.of_nat (length l) mod r) 0) as [Hm|]; [|discriminate].
    intros [= <-]. do 2 eexists. split; [reflexivity|].
    apply Z.div_exact in Hm; [|lia].
    assert (0 <= Z.of_nat (length l) / r) by (apply Z.div_pos; lia). nia.
  - destruct (Z.eqb_spec (r * c) (Z.of_nat (length l))) as [Hm|]; [|discriminate].
    intros [= <-]. do 2 eexists. split; [reflexivity|]. nia.
Qed.

(** The [try] block when [FIFO] converts and [DABIT] is twelve. *)
Lemma get_image_array_body_12 st n :
  int_of (attr st "FIFO") = Ok n -> int_of (attr st "DABIT") = Ok 12 ->
  get_image_array_body st =
  match floordiv (image_size st) (2 * n) with
  | Raise e => (Raise e, st)
  | Ok r =>
      match image_data st with
      | None => (Raise TypeError, st)
      | Some b =>
          match Np.frombuffer b Np.uint16 with
          | Raise e => (Raise e, st)
          | Ok buf =>
              match Np.reshape buf r n with
              | Raise e => (Raise e, st)
              | Ok a => (Ok (Np.band 4095 a),
                         add_log (INFO, CreatedImageArray (Np.shape (Np.band 4095 a))) st)
              end
          end
      end
  end.
Proof.
  intros Hn Hd. unfold get_image_array_body.
  rewrite (bind_ok _ _ _ _ _ (get_int _ _ _ Hn)).
  unfold lift at 1. rewrite Hn. unfold bind at 1.
  rewrite (bind_ok _ _ _ _ _ (get_int _ _ _ Hd)).
  unfold lift at 1. rewrite Hd. unfold bind at 1.
  unfold read at 1. unfold bind at 1. simpl (12 =? 12).
  unfold bind, lift, read, ret, raise.
  destruct (floordiv (image_size st) (2 * n)) as [r|e]; [|reflexivity].
  destruct (image_data st) as [b|]; [|reflexivity].
  destruct (Np.frombuffer b Np.uint16) as [buf|e]; [|reflexivity].
  destruct (Np.reshape buf r n) as [a|e]; reflexivity.
Qed.

(** The [try] block when [FIFO] converts and [DABIT] is eight. *)
Lemma get_image_array_body_8 st n :
  int_of (attr st "FIFO") = Ok n -> int_of (attr st "DABIT") = Ok 8 ->
  get_image_array_body st =
  match floordiv (image_size st) n with
  | Raise e => (Raise e, st)
  | Ok r =>
      match image_data st with
      | None => (Raise TypeError, st)
      | Some b =>
          match Np.reshape (map Np.byte_val b) r n with
          | Raise e => (Raise e, st)
          | Ok a =>
              match Np.set_column0 0 a with
              | Raise e => (Raise e, st)
              | Ok a' => (Ok a', add_log (INFO, CreatedImageArray (Np.shape a')) st)
              end
          end
      end
  end.
Proof.
  intros Hn Hd. unfold get_image_array_body.
  rewrite (bind_ok _ _ _ _ _ (get_int _ _ _ Hn)).
  unfold lift at 1. rewrite Hn. unfold bind at 1.
  rewrite (bind_ok _ _ _ _ _ (get_int _ _ _ Hd)).
  unfold lift at 1. rewrite Hd. unfold bind at 1.
  unfold read at 1. unfold bind at 1. simpl (8 =? 12). simpl (8 =? 8).
  unfold bind, lift, read, ret, raise.
  destruct (floordiv (image_size st) n) as [r|e]; [|reflexivity].
  destruct (image_data st) as [b|]; [|reflexivity].
  simpl Np.frombuffer. cbv iota beta.
  destruct (Np.reshape (map Np.byte_val b) r n) as [a|e]; [|reflexivity].
  destruct (Np.set_column0 0 a) as [a'|e]; reflexivity.
Qed.

(** A matrix comes out of [get_image_array] only when [FIFO] converts. *)
Lemma get_image_array_matrix_fifo st n rows :
  fst (get_image_array st) = Ok (Np.Arr2 n rows) ->
  exists c, int_of (attr st "FIFO") = Ok c.
Proof.
  rewrite get_image_array_handles. unfold get_image_array_body.
  destruct (get_run "FIFO" st) as (st1 & Hg & _). rewrite (bind_ok _ _ _ _ _ Hg).
  unfold lift at 1. destruct (int_of (attr st "FIFO")) as [c|e]; [eauto|].
  unfold bind at 1. simpl. discriminate.
Qed.

(** C7. When DABIT is 8 and [get_image_array] delivers a matrix, every ray
    of it starts with [0], and every other element is the payload byte at
    its row-major position, unmasked. *)
Theorem dabit8_first_column_zero st n rows :
  int_of (attr st "DABIT") = Ok 8 ->
  fst (get_image_array st) = Ok (Np.Arr2 n rows) ->
  Forall (fun row => row !! 0%nat = Some 0) rows /\
  exists payload, image_data st = Some payload /\
    forall i j row x, rows !! i = Some row -> row !! S j = Some x ->
      exists b, payload !! (i * n + S j)%nat = Some b /\ x = Np.byte_val b.
Proof.
  intros Hd H. destruct (get_image_array_matrix_fifo _ _ _ H) as [c Hc].
  revert H. rewrite get_image_array_handles, (get_image_array_body_8 st c Hc Hd).
  destruct (floordiv (image_size st) c) as [r|e]; [|discriminate].
  destruct (image_data st) as [payload|]; [|discriminate].
  destruct (Np.reshape (map Np.byte_val payload) r c) as [a|e] eqn:Hre; [|discriminate].
  apply reshape_ok in Hre as (n' & k & -> & Hsize).
  destruct n' as [|m]; simpl; [discriminate|].
  intros [= <- <-]. split.
  - apply Forall_forall. intros row Hrow. apply list_elem_of_fmap in Hrow as (row0 & -> & _).
    reflexivity.
  - exists payload. split; [reflexivity|]. intros i j row x Hrow Hx.
    rewrite list_lookup_fmap in Hrow.
    destruct (Np.chunks (S m) k (map Np.byte_val payload) !! i) as [row0|] eqn:Hrow0;
      [|discriminate].
    injection Hrow as <-. simpl in Hx.
    assert (Hx0 : row0 !! S j = Some x) by (destruct row0; [discriminate | exact Hx]).
    pose proof (chunks_elem _ _ _ _ _ _ _ Hrow0 Hx0) as Hb.
    rewrite list_lookup_fmap in Hb.
    destruct (payload !! (i * S m + S j)%nat) as [b|]; [|discriminate].
    injection Hb as <-. eauto.
Qed.

(** ** [get_image_size] and [_process_image] *)

Lemma int_of_str_error s e : Py.int_of_str s = Raise e -> e = ValueError.
Proof.
  unfold Py.int_of_str. destruct (Py.int_signed _); [|now intros [= <-]].
  destruct (_ <? _); [now intros [= <-] | discriminate].
Qed.

Lemma attr_header s s' a : header s = header s' -> attr s a = attr s' a.
Proof. unfold attr. now intros ->. Qed.

Lemma attr_with_log s l a : attr (with_log s l) a = attr s a.
Proof. reflexivity. Qed.



(** [get_image_size] always returns, with the announced size or [0]; a
    prefix that is not a number leaves the size-decoding error in the log. *)
Lemma get_image_size_run region st :
  exists l, get_image_size region st = (Ok (announced_size st region), with_log st l)
            /\ (is_ok (Py.int_of_str
                  (latin1 (Py.slice_to (if eq_int (attr st "DABIT") 12 then 10 else 6)
                                       region))) = false ->
                In (CRITICAL, ErrorDecodingImageSize) l).
Proof.
  unfold get_image_size, announced_size, try_except.
  destruct (get_logs "DABIT" st) as (l & Hg). rewrite (bind_ok _ _ _ _ _ Hg).
  unfold lift.
  destruct (Py.int_of_str _) as [z|e] eqn:E.
  - exists l. split; [reflexivity | discriminate].
  - apply int_of_str_error in E as ->.
    exists (l ++ [(CRITICAL, ErrorDecodingImageSize)]). split.
    + unfold bind, logger, update, ret, add_log, with_log. simpl. now rewrite app_assoc.
    + intros _. apply in_or_app. right. now left.
Qed.

(** [_process_image] always returns the image part from its eleventh
    byte on, whatever DABIT is, and stores it with the announced size. *)
Lemma process_image_run region st :
  exists l,
    _process_image region st
    = (Ok (Py.slice_from 10 region),
       mkPolarImage (announced_size st region) (header st)
         (Some (Py.slice_from 10 region)) (eoh st) (image_array st) (log st ++ l))
    /\ In (DEBUG, FoundImageSize (announced_size st region)) l
    /\ (is_ok (Py.int_of_str
          (latin1 (Py.slice_to (if eq_int (attr st "DABIT") 12 then 10 else 6)
                               region))) = false ->
        In (CRITICAL, ErrorDecodingImageSize) l).
Proof.
  unfold _process_image, try_except.
  destruct (get_image_size_run region st) as (l & Hg & Herr).
  rewrite (bind_ok _ _ _ _ _ Hg). simpl.
  exists (l ++ [(DEBUG, FoundImageSize (announced_size st region))]).
  rewrite app_assoc. repeat split.
  - apply in_or_app. right. now left.
  - intros H. apply in_or_app. left. auto.
Qed.

Lemma dabit8_first_column_zero_witness :
  Forall (fun row => row !! 0%nat = Some 0) [[0; 2]; [0; 4]] /\
  exists payload, image_data session8 = Some payload /\
    forall i j row x, [[0; 2]; [0; 4]] !! i = Some row -> row !! S j = Some x ->
      exists b, payload !! (i * 2 + S j)%nat = Some b /\ x = Np.byte_val b.
Proof.
  apply (dabit8_first_column_zero session8 2 [[0; 2]; [0; 4]]);
    vm_compute; reflexivity.
Defined.

(** A size prefix that reads as a negative number: the number of rays is
    negative, numpy takes it for the unknown extent and infers it from the
    payload, and the capture is decoded. *)
Lemma negative_size_prefix_is_inferred :
  let s := new (Some capture_negative_size) in
  image_size s = -8 /\
  image_array s = Some (Np.Arr2 4 [[0; 2; 3; 4]; [0; 6; 7; 8]]).
Proof. vm_compute. split; reflexivity. Qed.

(** ** Twelve-bit decoding *)

Lemma reshape_plain l r c :
  0 <= r -> 0 < c ->
  Np.reshape l r c =
  if r * c =? Z.of_nat (length l)
  then Ok (Np.Arr2 (Z.to_nat c) (Np.chunks (Z.to_nat c) (Z.to_nat r) l))
  else Raise ValueError.
Proof.
  intros Hr Hc. unfold Np.reshape.
  destruct (Z.ltb_spec r 0); [lia|]. destruct (Z.ltb_spec c 0); [lia|].
  reflexivity.
Qed.









(** ** The offset of the payload *)

(** C1 at its failing input. [capture8] announces DABIT 8, so the size is
    read from the first six bytes of the image part (and is 8); the payload
    is nevertheless taken from byte ten on, which leaves the last four of
    the eight samples, and the decoder ends with the empty array. *)
Theorem payload_offset_is_ten_for_dabit8 :
  let s := new (Some capture8) in
  attr s "DABIT" = VInt 8 /\
  image_size s = 8 /\
  image_data s = Some (Py.slice_from 10 region8) /\
  Py.slice_from 10 region8 = [x05; x06; x07; x08] /\
  Py.slice_from 6 region8 = [x01; x02; x03; x04; x05; x06; x07; x08] /\
  image_array s = Some Np.empty.
Proof. vm_compute. repeat split. Qed.

(** ** A size prefix that is not a number *)

(** C3, as the code has it. When the first six (ten for DABIT 12)
    characters of the image part are not a number, [_process_image] logs
    the size-decoding error and goes on with the size [0]: it stores
    [image_size = 0], still takes the payload from byte ten on, and
    returns it; nothing is raised. *)
Theorem bad_size_prefix_defaults_to_zero region st :
  is_ok (Py.int_of_str
           (latin1 (Py.slice_to (if eq_int (attr st "DABIT") 12 then 10 else 6) region)))
  = false ->
  exists l,
    _process_image region st
    = (Ok (Py.slice_from 10 region),
       mkPolarImage 0 (header st) (Some (Py.slice_from 10 region)) (eoh st)
         (image_array st) (log st ++ l))
    /\ In (CRITICAL, ErrorDecodingImageSize) l
    /\ In (DEBUG, FoundImageSize 0) l.
Proof.
  intros Hbad. destruct (process_image_run region st) as (l & Hrun & Hfound & Herr).
  assert (Hsize : announced_size st region = 0).
  { unfold announced_size. destruct (Py.int_of_str _); [discriminate | reflexivity]. }
  rewrite Hsize in Hrun, Hfound. exists l. auto.
Qed.

Lemma bad_size_prefix_defaults_to_zero_witness :
  exists l,
    _process_image region_bad parsed8
    = (Ok (Py.slice_from 10 region_bad),
       mkPolarImage 0 (header parsed8) (Some (Py.slice_from 10 region_bad)) (eoh parsed8)
         (image_array parsed8) (log parsed8 ++ l))
    /\ In (CRITICAL, ErrorDecodingImageSize) l
    /\ In (DEBUG, FoundImageSize 0) l.
Proof.
  apply (bad_size_prefix_defaults_to_zero region_bad parsed8). vm_compute. reflexivity.
Defined.

(** C3 as stated fails: the prefix of [capture_bad] is not a number, and
    the constructor goes on with the size [0], takes a payload, runs the
    decoder on it and reports the capture as processed. *)
Lemma bad_size_prefix_counterexample :
  let s := new (Some capture_bad) in
  Py.int_of_str (latin1 (Py.slice_to 6 region_bad)) = Raise ValueError /\
  image_size s = 0 /\
  image_data s = Some [x05; x06; x07; x08] /\
  image_array s = Some Np.empty /\
  drop 5 (log s)
  = [(CRITICAL, ErrorDecodingImageSize); (DEBUG, FoundImageSize 0);
     (CRITICAL, ErrorCreatingImageArray); (INFO, Processed)].
Proof. vm_compute. repeat split. Qed.

(** ** A file without the marker *)

(** C5. When the content of the file does not hold the bytes [EOH],
    construction stops after the header stage: the header stays empty,
    nothing of the image is stored or decoded, and the only record logged
    is the critical one that says the marker was not found. *)
Theorem missing_eoh_marker_leaves_empty_session content :
  Py.find (bytes_of "EOH") content = -1 ->
  new (Some content)
  = mkPolarImage 0 ∅ None None None [(CRITICAL, EohMarkerNotFound)].
Proof.
  intros H. unfold new, __init__, try_except, bind, _process_file.
  simpl bytes_of. simpl in H. rewrite H. reflexivity.
Qed.

Lemma missing_eoh_marker_leaves_empty_session_witness :
  new (Some (bytes_of "DABIT 8 CC bits per sample"))
  = mkPolarImage 0 ∅ None None None [(CRITICAL, EohMarkerNotFound)].
Proof.
  apply (missing_eoh_marker_leaves_empty_session (bytes_of "DABIT 8 CC bits per sample")).
  vm_compute. reflexivity.
Defined.

(** ** Rendering *)

Lemma zip_with_app_repeat (pre : list Z) rows :
  zip_with app (repeat pre (length rows)) rows = map (app pre) rows.
Proof. induction rows as [|r rows IH]; simpl; [reflexivity | now rewrite IH]. Qed.

(** What a call of [render] that returns has done: the stored matrix was
    a matrix, it now is that matrix behind [p] columns of the highest
    brightness, and this is the matrix drawn. *)
Lemma render_run st orient toggle c sf sd fig st' :
  int_of (attr st "SFREQ") = Ok sf -> int_of (attr st "SDRNG") = Ok sd ->
  render orient toggle c st = (Ok fig, st') ->
  exists p n rows l,
    pixels_to_omit sf sd = Ok p /\ 0 <= p /\
    image_array st = Some (Np.Arr2 n rows) /\
    mesh fig = widened (Z.to_nat p) (highest_brightness st) n rows /\
    rays_angles fig = length rows /\
    pixel_positions fig = (Z.to_nat p + n)%nat /\
    cmap fig = c /\ norm fig = (0, 4095) /\
    theta_direction fig = (if toggle then -1 else 1) /\
    st' = mkPolarImage (image_size st) (header st) (image_data st) (eoh st)
            (Some (widened (Z.to_nat p) (highest_brightness st) n rows))
            (log st ++ l).
Proof.
  intros Hsf Hsd. unfold render.
  rewrite (bind_ok _ _ _ _ _ (get_int _ _ _ Hsf)).
  unfold lift at 1. rewrite Hsf. unfold bind at 1.
  rewrite (bind_ok _ _ _ _ _ (get_int _ _ _ Hsd)).
  unfold lift at 1. rewrite Hsd. unfold bind at 1.
  unfold lift at 1. destruct (pixels_to_omit sf sd) as [p|e]; unfold bind at 1;
    [|discriminate].
  destruct (get_logs "DABIT" st) as [l Hg]. rewrite (bind_ok _ _ _ _ _ Hg).
  unfold read at 1. unfold bind at 1. simpl image_array.
  destruct (image_array st) as [old|]; [|discriminate].
  unfold ret at 1. unfold bind at 1.
  unfold lift at 1. unfold Np.full.
  destruct (Z.ltb_spec p 0) as [|Hp]; unfold bind at 1; [discriminate|].
  unfold lift at 1. destruct old as [d|n rows]; simpl Np.concatenate1.
  { unfold bind at 1. discriminate. }
  rewrite repeat_length. rewrite bool_decide_true by reflexivity.
  unfold bind at 1. unfold update at 1. unfold bind at 1.
  unfold lift at 1. simpl shape1. unfold bind at 1.
  rewrite zip_with_app_repeat.
  fold (highest_brightness st).
  fold (widened (Z.to_nat p) (highest_brightness st) n rows).
  set (st2 := set_image_array _ _).
  destruct orient.
  - destruct (get_logs "BO2RA" st2) as [l2 Hg2]. 
    unfold bind at 1. rewrite (bind_ok _ _ _ _ _ Hg2).
    unfold lift at 1. destruct (twice (attr st2 "BO2RA")) as [v|e]; unfold bind at 1;
      [|discriminate].
    unfold lift at 1. destruct (int_of v) as [deg|e]; unfold bind at 1; [|discriminate].
    unfold ret. intros [= <- <-].
    exists p, n, rows, (l ++ l2). repeat split; try reflexivity; try assumption.
    + simpl. apply length_map.
    + unfold with_log, st2, set_image_array. simpl. now rewrite app_assoc.
  - unfold bind, ret. intros [= <- <-].
    exists p, n, rows, l. repeat split; try reflexivity; try assumption.
    simpl. apply length_map.
Qed.

(** ** Rendering twice *)

(** [render] returns only when SFREQ and SDRNG convert to integers. *)
Lemma render_ints st orient toggle c fig st' :
  render orient toggle c st = (Ok fig, st') ->
  exists sf sd, int_of (attr st "SFREQ") = Ok sf /\ int_of (attr st "SDRNG") = Ok sd.
Proof.
  unfold render.
  destruct (get_logs "SFREQ" st) as [l1 Hg1]. rewrite (bind_ok _ _ _ _ _ Hg1).
  unfold lift at 1. destruct (int_of (attr st "SFREQ")) as [sf|e] eqn:Hsf;
    unfold bind at 1; [|discriminate].
  destruct (get_logs "SDRNG" (with_log st l1)) as [l2 Hg2].
  rewrite (bind_ok _ _ _ _ _ Hg2). rewrite attr_with_log.
  unfold lift at 1. destruct (int_of (attr st "SDRNG")) as [sd|e] eqn:Hsd;
    unfold bind at 1; [|discriminate].
  eauto.
Qed.

Lemma highest_brightness_with_log st l :
  highest_brightness (with_log st l) = highest_brightness st.
Proof. reflexivity. Qed.

Lemma saveto_render out st :
  exists l, saveto out st = render true false "Greys_r" (with_log st l).
Proof.
  unfold saveto. destruct (no_path out).
  - now eexists [_].
  - exists []. now rewrite with_log_nil.
Qed.

Lemma save_with_metadata_render out st :
  exists l,
    save_with_metadata out st
    = match render true false "Greys_r" (with_log st l) with
      | (Ok fig, s) => (Ok (mkPng fig (header s)), s)
      | (Raise e, s) => (Raise e, s)
      end.
Proof.
  unfold save_with_metadata. destruct (no_path out).
  - exists [(INFO, SavingTo)]. unfold bind at 1. simpl. unfold bind.
    change (add_log (INFO, SavingTo) st) with (with_log st [(INFO, SavingTo)]).
    destruct (render true false "Greys_r" (with_log st [(INFO, SavingTo)]))
      as [[fig|e] s1]; reflexivity.
  - exists []. rewrite with_log_nil. unfold bind at 1. simpl. unfold bind.
    destruct (render true false "Greys_r" st) as [[fig|e] s1]; reflexivity.
Qed.

(** One call of [render] that returns, whatever the log held before. *)
Lemma render_after_logging st l fig st' :
  render true false "Greys_r" (with_log st l) = (Ok fig, st') ->
  exists sf sd p n rows,
    int_of (attr st "SFREQ") = Ok sf /\ int_of (attr st "SDRNG") = Ok sd /\
    pixels_to_omit sf sd = Ok p /\ 0 <= p /\
    image_array st = Some (Np.Arr2 n rows) /\
    mesh fig = widened (Z.to_nat p) (highest_brightness st) n rows /\
    pixel_positions fig = (Z.to_nat p + n)%nat /\
    image_array st' = Some (mesh fig) /\
    header st' = header st.
Proof.
  intros Hr. destruct (render_ints _ _ _ _ _ _ Hr) as (sf & sd & Hsf & Hsd).
  destruct (render_run _ _ _ _ _ _ _ _ Hsf Hsd Hr)
    as (p & n & rows & l' & Hp & Hp0 & Harr & Hmesh & _ & Hpos & _ & _ & _ & ->).
  exists sf, sd, p, n, rows. rewrite Hmesh. simpl. auto 10.
Qed.

Lemma highest_brightness_header s s' :
  header s = header s' -> highest_brightness s = highest_brightness s'.
Proof. unfold highest_brightness. intros H. now rewrite (attr_header s s' _ H). Qed.

(** C10, as the code has it. [render] is not read-only: a call that
    returns leaves the stored matrix widened by the blanking width [p], and
    does not restore it. So when [saveto] and then [save_with_metadata]
    both return, the second draws a matrix that has [p] more columns of
    the highest brightness than the one the first drew, and the two
    matrices differ whenever [p > 0]. *)
Theorem render_twice_widens_twice st out1 out2 fig1 png :
  fst (saveto out1 st) = Ok fig1 ->
  fst (save_with_metadata out2 (snd (saveto out1 st))) = Ok png ->
  exists sf sd pz n rows,
    int_of (attr st "SFREQ") = Ok sf /\ int_of (attr st "SDRNG") = Ok sd /\
    pixels_to_omit sf sd = Ok pz /\ 0 <= pz /\
    let p := Z.to_nat pz in
    let hb := highest_brightness st in
    image_array st = Some (Np.Arr2 n rows) /\
    mesh fig1 = widened p hb n rows /\
    image_array (snd (saveto out1 st)) = Some (mesh fig1) /\
    mesh (picture png) = widened p hb (p + n) (map (app (repeat hb p)) rows) /\
    image_array (snd (save_with_metadata out2 (snd (saveto out1 st))))
    = Some (mesh (picture png)) /\
    pixel_positions fig1 = (p + n)%nat /\
    pixel_positions (picture png) = (p + (p + n))%nat /\
    (0 < pz -> mesh (picture png) <> mesh fig1).
Proof.
  destruct (saveto_render out1 st) as [l1 ->].
  destruct (render true false "Greys_r" (with_log st l1)) as [r1 s1] eqn:Hr1.
  simpl. intros ->.
  destruct (save_with_metadata_render out2 s1) as [l2 ->].
  destruct (render true false "Greys_r" (with_log s1 l2)) as [[fig2|e] s2] eqn:Hr2;
    simpl; [|discriminate].
  intros [= <-]. simpl.
  destruct (render_after_logging _ _ _ _ Hr1)
    as (sf & sd & pz & n & rows & Hsf & Hsd & Hp & Hp0 & Harr & Hmesh & Hpos & Harr1 & Hh1).
  destruct (render_after_logging _ _ _ _ Hr2)
    as (sf' & sd' & pz' & n' & rows' & Hsf' & Hsd' & Hp' & _ & Harr' & Hmesh' & Hpos'
        & Harr2 & _).
  rewrite (attr_header s1 st _ Hh1) in Hsf'. rewrite (attr_header s1 st _ Hh1) in Hsd'.
  rewrite Hsf in Hsf'. injection Hsf' as <-.
  rewrite Hsd in Hsd'. injection Hsd' as <-.
  rewrite Hp in Hp'. injection Hp' as <-.
  rewrite (highest_brightness_header s1 st Hh1) in Hmesh'.
  rewrite Harr1, Hmesh in Harr'. injection Harr' as <- <-.
  exists sf, sd, pz, n, rows. repeat split; try assumption.
  intros Hpos0. rewrite Hmesh, Hmesh'. unfold widened. intros [= Hw _]. lia.
Qed.

Lemma render_twice_widens_twice_witness :
  exists sf sd pz n rows,
    int_of (attr (new (Some capture12)) "SFREQ") = Ok sf /\
    int_of (attr (new (Some capture12)) "SDRNG") = Ok sd /\
    pixels_to_omit sf sd = Ok pz /\ 0 <= pz /\
    let p := Z.to_nat pz in
    let hb := highest_brightness (new (Some capture12)) in
    let fig1 := mkFigure (widened 8 4095 2 [[1; 4095]; [0; 564]]) 2 10 "Greys_r"
                  (0, 4095) 1 (BowOffset 20) in
    let png := mkPng (mkFigure (widened 16 4095 2 [[1; 4095]; [0; 564]]) 2 18 "Greys_r"
                        (0, 4095) 1 (BowOffset 20))
                 (header (new (Some capture12))) in
    image_array (new (Some capture12)) = Some (Np.Arr2 n rows) /\
    mesh fig1 = widened p hb n rows /\
    image_array (snd (saveto None (new (Some capture12)))) = Some (mesh fig1) /\
    mesh (picture png) = widened p hb (p + n) (map (app (repeat hb p)) rows) /\
    image_array (snd (save_with_metadata None (snd (saveto None (new (Some capture12))))))
    = Some (mesh (picture png)) /\
    pixel_positions fig1 = (p + n)%nat /\
    pixel_positions (picture png) = (p + (p + n))%nat /\
    (0 < pz -> mesh (picture png) <> mesh fig1).
Proof.
  apply (render_twice_widens_twice (new (Some capture12)) None None
           (mkFigure (widened 8 4095 2 [[1; 4095]; [0; 564]]) 2 10 "Greys_r"
              (0, 4095) 1 (BowOffset 20))
           (mkPng (mkFigure (widened 16 4095 2 [[1; 4095]; [0; 564]]) 2 18 "Greys_r"
                     (0, 4095) 1 (BowOffset 20))
              (header (new (Some capture12)))));
    vm_compute; reflexivity.
Defined.

(** C10 as stated fails: with no sampling delay the blanking width is
    [0], the stored matrix is the same after [saveto] as before, and
    [save_with_metadata] then draws exactly the figure [saveto] drew. *)
Lemma render_without_delay_counterexample :
  let s := new (Some capture_nodelay) in
  let first := saveto None s in
  let second := save_with_metadata None (snd first) in
  pixels_to_omit 40 0 = Ok 0 /\
  image_array (snd first) = image_array s /\
  image_array (snd second) = image_array s /\
  exists fig png, fst first = Ok fig /\ fst second = Ok png /\ picture png = fig.
Proof.
  vm_compute. repeat split. do 2 eexists. repeat split.
Qed.

(** ** [auto_type] *)

(** C4 at its failing input. The superscript two passes [str.isdigit]
    although it is no decimal digit and [int] refuses it: [auto_type]
    raises [ValueError] instead of returning the original string, and
    [_process_header] then drops the header line that holds it. *)
Theorem auto_type_raises_on_superscript_digit st :
  Py.isdigit superscript_two = true /\
  all_decimal superscript_two = false /\
  Py.float_of_str superscript_two = Raise ValueError /\
  auto_type superscript_two st = (Raise ValueError, st) /\
  fst (process_line (bytes_of "AREA " ++ [xb2] ++ bytes_of " CC exponent of the unit")
         (∅, []) st) = Ok (∅, []).
Proof. repeat split. Qed.

(** ** More on [auto_type] *)

Lemma is_decimal_not_space c : Py.is_decimal c = true -> Py.is_number_space c = false.
Proof.
  unfold Py.is_decimal, Py.is_number_space, Py.between.
  intros [H1 H2]%andb_true_iff. apply Z.leb_le in H1, H2.
  repeat (apply orb_false_iff; split); try apply andb_false_iff;
    try (apply Z.eqb_neq; lia).
  right. apply Z.leb_gt. lia.
Qed.

Lemma is_decimal_isdigit c : Py.is_decimal c = true -> Py.isdigit_char c = true.
Proof. unfold Py.isdigit_char. now intros ->. Qed.

Lemma rstrip_by_none sp l : forallb (fun c => negb (sp c)) l = true -> Py.rstrip_by sp l = l.
Proof.
  induction l as [|c l IH]; simpl; [reflexivity|].
  intros [Hc Hl]%andb_true_iff. rewrite (IH Hl).
  destruct l; [|reflexivity]. now destruct (sp c).
Qed.

Lemma number_strip_decimal l : forallb Py.is_decimal l = true -> Py.number_strip l = l.
Proof.
  intros H. unfold Py.number_strip.
  assert (Hl : Py.lstrip_by Py.is_number_space l = l).
  { destruct l as [|c l]; [reflexivity|]. simpl in *.
    apply andb_true_iff in H as [Hc _]. now rewrite (is_decimal_not_space c Hc). }
  rewrite Hl. apply rstrip_by_none.
  apply forallb_forall. intros c Hc. rewrite forallb_forall in H.
  now rewrite (is_decimal_not_space c (H c Hc)).
Qed.

Lemma int_digits_decimal l acc :
  forallb Py.is_decimal l = true ->
  Py.int_digits l false acc = Some (fold_left (fun a c => 10 * a + Py.digit_val c) l acc).
Proof.
  revert acc. induction l as [|c l IH]; intros acc; simpl; [reflexivity|].
  intros [Hc Hl]%andb_true_iff. rewrite Hc. now apply IH.
Qed.

Lemma is_decimal_not_sign c :
  Py.is_decimal c = true -> (Py.code c =? 45) = false /\ (Py.code c =? 43) = false.
Proof.
  unfold Py.is_decimal, Py.between. intros [H1 H2]%andb_true_iff.
  apply Z.leb_le in H1, H2. split; apply Z.eqb_neq; lia.
Qed.

Lemma filter_all {A} (f : A -> bool) l : forallb f l = true -> List.filter f l = l.
Proof.
  induction l as [|a l IH]; simpl; [reflexivity|].
  intros [Ha Hl]%andb_true_iff. now rewrite Ha, (IH Hl).
Qed.

(** [int] on a string of decimal digits: the number it writes, unless it
    has more digits than the cap. *)
Lemma int_of_str_decimal s :
  all_decimal s = true ->
  Py.int_of_str s
  = if Py.max_str_digits <? Z.of_nat (length (Py.chars s))
    then Raise ValueError
    else Ok (Py.digits_value (Py.chars s)).
Proof.
  unfold all_decimal, Py.int_of_str, Py.digits_value.
  destruct (Py.chars s) as [|c l] eqn:E; [discriminate|]. intros H.
  rewrite (number_strip_decimal _ H), (filter_all _ _ H). simpl in H.
  pose proof H as [Hc Hl]%andb_true_iff.
  destruct (is_decimal_not_sign c Hc) as [Hm Hp].
  unfold Py.int_signed. rewrite Hm, Hp. unfold Py.int_body. rewrite Hc.
  now rewrite (int_digits_decimal (c :: l) 0 H).
Qed.

Lemma all_decimal_isdigit s : all_decimal s = true -> Py.isdigit s = true.
Proof.
  unfold all_decimal, Py.isdigit. destruct (Py.chars s) as [|c l]; [discriminate|].
  intros H. apply forallb_forall. intros x Hx. rewrite forallb_forall in H.
  apply is_decimal_isdigit, H, Hx.
Qed.

Lemma auto_type_decimal s st :
  all_decimal s = true ->
  auto_type s st
  = if Py.max_str_digits <? Z.of_nat (length (Py.chars s))
    then (Raise ValueError, st)
    else (Ok (VInt (Py.digits_value (Py.chars s))),
          add_log (DEBUG, Converted s TInt) st).
Proof.
  intros H. unfold auto_type. rewrite (all_decimal_isdigit s H).
  unfold lift, bind. rewrite (int_of_str_decimal s H).
  now destruct (_ <? _).
Qed.

(** X1. A non-empty string of decimal digits becomes the integer it
    writes, never a float or a string, and the only trace is one debug
    record; unless it has more than 4300 digits: [int] then refuses it, and
    [auto_type] raises [ValueError] and logs nothing. *)
Theorem auto_type_decimal_string_is_int s st :
  all_decimal s = true ->
  auto_type s st
  = if Py.max_str_digits <? Z.of_nat (length (Py.chars s))
    then (Raise ValueError, st)
    else (Ok (VInt (Py.digits_value (Py.chars s))),
          add_log (DEBUG, Converted s TInt) st).
Proof. apply auto_type_decimal. Qed.

Lemma auto_type_decimal_string_is_int_witness :
  auto_type "00123" fresh
  = if Py.max_str_digits <? Z.of_nat (length (Py.chars "00123"))
    then (Raise ValueError, fresh)
    else (Ok (VInt (Py.digits_value (Py.chars "00123"))),
          add_log (DEBUG, Converted "00123" TInt) fresh).
Proof. apply (auto_type_decimal_string_is_int "00123" fresh). reflexivity. Defined.

Lemma float_of_str_error s e : Py.float_of_str s = Raise e -> e = ValueError.
Proof.
  unfold Py.float_of_str.
  destruct (Py.drop_underscores _ _) as [l|]; [|now intros [= <-]].
  destruct (Py.take_sign l) as [neg body].
  destruct (Py.decimal_number body) as [[m ex]|]; [discriminate|].
  destruct (_ || _); [discriminate|].
  destruct (Py.is_word "nan" body); [discriminate|]. now intros [= <-].
Qed.

Lemma auto_type_other s st :
  Py.isdigit s = false ->
  fst (auto_type s st)
  = Ok (match Py.float_of_str s with
        | Ok f => VFloat f
        | Raise _ =>
            if bool_decide (Py.lower s = "true") then VBool true
            else if bool_decide (Py.lower s = "false") then VBool false
            else VStr s
        end).
Proof.
  intros H. unfold auto_type. rewrite H. unfold try_except, bind, lift.
  destruct (Py.float_of_str s) as [f|e] eqn:E; [reflexivity|].
  apply float_of_str_error in E as ->. simpl.
  destruct (bool_decide (Py.lower s = "true")) eqn:Ht; simpl.
  - reflexivity.
  - destruct (bool_decide (Py.lower s = "false")); reflexivity.
Qed.

(** X2. A string on which [str.isdigit] fails is never refused: it becomes
    the float it writes if it writes one, else the boolean it names, else
    it comes back unchanged. *)
Theorem auto_type_without_digits_never_raises s st :
  Py.isdigit s = false ->
  fst (auto_type s st)
  = Ok (match Py.float_of_str s with
        | Ok f => VFloat f
        | Raise _ =>
            if bool_decide (Py.lower s = "true") then VBool true
            else if bool_decide (Py.lower s = "false") then VBool false
            else VStr s
        end).
Proof. apply auto_type_other. Qed.

Lemma auto_type_without_digits_never_raises_witness :
  fst (auto_type "TRUE" fresh)
  = Ok (match Py.float_of_str "TRUE" with
        | Ok f => VFloat f
        | Raise _ =>
            if bool_decide (Py.lower "TRUE" = "true") then VBool true
            else if bool_decide (Py.lower "TRUE" = "false") then VBool false
            else VStr "TRUE"
        end).
Proof. apply (auto_type_without_digits_never_raises "TRUE" fresh). reflexivity. Defined.

Lemma auto_type_raise_cases s st e :
  fst (auto_type s st) = Raise e ->
  e = ValueError /\ Py.isdigit s = true /\
  (all_decimal s = false \/ Py.max_str_digits < Z.of_nat (length (Py.chars s))).
Proof.
  destruct (Py.isdigit s) eqn:Hd.
  - destruct (all_decimal s) eqn:Ha.
    + rewrite (auto_type_decimal s st Ha).
      destruct (Z.ltb_spec Py.max_str_digits (Z.of_nat (length (Py.chars s))));
        [|discriminate].
      simpl. intros [= <-]. auto.
    + unfold auto_type. rewrite Hd. unfold lift, bind.
      destruct (Py.int_of_str s) as [z|e'] eqn:E; [discriminate|].
      apply int_of_str_error in E as ->. simpl. intros [= <-]. auto.
  - now rewrite (auto_type_other s st Hd).
Qed.

(** X3. [auto_type] raises nothing but [ValueError], and only on a string
    that passes [str.isdigit] and that [int] refuses all the same: one
    that is not all decimal digits, or one of more than 4300 digits. *)
Theorem auto_type_raises_only_on_other_digits s st e :
  fst (auto_type s st) = Raise e ->
  e = ValueError /\ Py.isdigit s = true /\
  (all_decimal s = false \/ Py.max_str_digits < Z.of_nat (length (Py.chars s))).
Proof. apply auto_type_raise_cases. Qed.

Lemma auto_type_raises_only_on_other_digits_witness :
  ValueError = ValueError /\ Py.isdigit superscript_two = true /\
  (all_decimal superscript_two = false
   \/ Py.max_str_digits < Z.of_nat (length (Py.chars superscript_two))).
Proof.
  apply (auto_type_raises_only_on_other_digits superscript_two fresh ValueError).
  reflexivity.
Defined.

(** The examples of the specification. *)
Lemma auto_type_examples st :
  fst (auto_type "123" st) = Ok (VInt 123) /\
  fst (auto_type "12.5" st) = Ok (VFloat (Py.float_of_decimal false 125 (-1))) /\
  fst (auto_type "true" st) = Ok (VBool true) /\
  fst (auto_type "abc" st) = Ok (VStr "abc").
Proof. repeat split. Qed.

(** ** More on [get] and [describe] *)

Lemma upper_uchar_idempotent c :
  List.flat_map Py.upper_uchar (Py.upper_uchar c) = Py.upper_uchar c.
Proof.
  destruct c as [[[] [] [] [] [] [] [] []]| |]; reflexivity.
Qed.

Lemma upper_idempotent s : Py.upper (Py.upper s) = Py.upper s.
Proof.
  unfold Py.upper. induction s as [|c s IH]; simpl; [reflexivity|].
  now rewrite flat_map_app, upper_uchar_idempotent, IH.
Qed.

(** X4. The case of the letters of an attribute name does not matter to [get]
    and [describe]: asking for the upper-case name is asking for the name. *)
Theorem get_ignores_case a st :
  get (Py.upper a) st = get a st /\ describe (Py.upper a) st = describe a st.
Proof. unfold get, describe. now rewrite upper_idempotent. Qed.

Lemma latin1_chars_name l s :
  Py.latin1_chars s = Some l -> map Py.Latin1 l = s.
Proof.
  revert l. induction s as [|c s IH]; intros l; simpl.
  - now intros [= <-].
  - destruct c as [a| |]; simpl; try discriminate.
    destruct (Py.latin1_chars s) as [l'|]; [|discriminate].
    intros [= <-]. simpl. now rewrite (IH l' eq_refl).
Qed.

Lemma to_latin1_name s key : Py.to_latin1 s = Some key -> Py.name_of key = s.
Proof.
  unfold Py.to_latin1, Py.name_of.
  destruct (Py.latin1_chars s) as [l|] eqn:E; [|discriminate].
  intros [= <-]. rewrite list_ascii_of_string_of_list_ascii.
  now apply latin1_chars_name.
Qed.

Lemma get_stored a st v :
  fst (get a st) = Ok v -> v <> VNone ->
  exists key e,
    header st !! key = Some e /\ value e = v /\
    Py.name_of key = Py.upper a /\ Py.upper key = key /\
    get a st = (Ok v, st) /\ describe a st = (Ok (Some (description e)), st).
Proof.
  unfold get, describe, bind, read, item.
  case_bool_decide as Hh; [simpl; congruence|].
  destruct (Py.to_latin1 (Py.upper a)) as [key|] eqn:Hk; [|simpl; congruence].
  destruct (header st !! key) as [e|] eqn:He; [|simpl; congruence].
  simpl. intros [= <-] _. exists key, e.
  pose proof (to_latin1_name _ _ Hk) as Hn.
  repeat split; try assumption.
  rewrite Hn. apply upper_idempotent.
Qed.

(** X5. What [get] returns, when it is not [None], is the value stored
    under the upper-case form of the name asked for, [describe] returns the
    description stored there, and neither changes the object nor logs.
    The key is a Latin-1 text that [str.upper] leaves as it is: an entry
    whose key in the file has a small letter is never returned, under any
    name. *)
Theorem get_reads_upper_case_keys_only a st v :
  fst (get a st) = Ok v -> v <> VNone ->
  exists key e,
    header st !! key = Some e /\ value e = v /\
    Py.name_of key = Py.upper a /\ Py.upper key = key /\
    get a st = (Ok v, st) /\ describe a st = (Ok (Some (description e)), st).
Proof. apply get_stored. Qed.

Lemma get_reads_upper_case_keys_only_witness :
  exists key e,
    header parsed12 !! key = Some e /\ value e = VInt 2 /\
    Py.name_of key = Py.upper "fifo" /\ Py.upper key = key /\
    get "fifo" parsed12 = (Ok (VInt 2), parsed12) /\
    describe "fifo" parsed12 = (Ok (Some (description e)), parsed12).
Proof.
  apply (get_reads_upper_case_keys_only "fifo" parsed12 (VInt 2));
    [vm_compute; reflexivity | discriminate].
Defined.

(** The three Latin-1 letters whose capital is not a Latin-1 character in
    their place: a name with a sharp s finds the key written with [SS], and
    a name with the y with diaeresis or the micro sign finds nothing, not
    even the key written with that very letter. *)
Lemma upper_beyond_latin1 :
  let sharp_s := String (Py.chr 223) "" in
  let y_diaeresis := String (Py.chr 255) "" in
  let micro := String (Py.chr 181) "" in
  let h := <["SS" := mkEntry (VInt 5) "N/A"]>
             (<[y_diaeresis := mkEntry (VInt 6) "N/A"]>
                (<[micro := mkEntry (VInt 7) "N/A"]> ∅)) in
  let st := set_header h fresh in
  get sharp_s st = (Ok (VInt 5), st) /\
  get y_diaeresis st
  = (Ok VNone, add_log (ERROR, AttributeNotFound [Py.CapitalYDiaeresis]) st) /\
  get micro st = (Ok VNone, add_log (ERROR, AttributeNotFound [Py.CapitalMu]) st).
Proof. vm_compute. repeat split. Qed.

(** ** Searching *)

Section Find.
Context {A : Type} `{EqDecision A}.

Lemma startswith_app (sub l : list A) :
  Py.startswith sub l = true <-> exists rest, l = sub ++ rest.
Proof.
  revert l. induction sub as [|a sub IH]; intros l; simpl.
  - split; [eauto | reflexivity].
  - destruct l as [|b l].
    + split; [discriminate | intros [rest H]; discriminate].
    + rewrite andb_true_iff, bool_decide_eq_true, IH. split.
      * intros [-> [rest ->]]. eauto.
      * intros [rest [= -> ->]]. eauto.
Qed.

Lemma find_from_range (sub l : list A) i :
  Py.find_from sub l i = -1 \/
  (i <= Py.find_from sub l i <= i + Z.of_nat (length l)).
Proof.
  revert i. induction l as [|b l IH]; intros i; simpl.
  - destruct (Py.startswith sub []); [right; lia | now left].
  - destruct (Py.startswith sub (b :: l)); [right; lia|].
    destruct (IH (i + 1)) as [H|H]; [now left | right; lia].
Qed.

Lemma find_from_found (sub l : list A) i k :
  0 <= i -> Py.find_from sub l i = k -> k <> -1 ->
  exists j, k = i + Z.of_nat j /\ (j <= length l)%nat /\
            Py.startswith sub (drop j l) = true /\
            forall j', (j' < j)%nat -> Py.startswith sub (drop j' l) = false.
Proof.
  revert i. induction l as [|b l IH]; intros i Hi; simpl.
  - destruct (Py.startswith sub []) eqn:E; [|intros <-; contradiction].
    intros <- _. exists 0%nat. repeat split; [lia | lia | exact E | lia].
  - destruct (Py.startswith sub (b :: l)) eqn:E.
    + intros <- _. exists 0%nat. repeat split; [lia | lia | exact E | lia].
    + intros Hk Hne. destruct (IH (i + 1) ltac:(lia) Hk Hne) as (j & -> & Hj & Hs & Hbefore).
      exists (S j). repeat split; [lia | lia | exact Hs |].
      intros [|j'] Hj'; [exact E | apply Hbefore; lia].
Qed.

Lemma find_from_absent (sub l : list A) i :
  Py.find_from sub l i = -1 -> 0 <= i ->
  forall j, (j <= length l)%nat -> Py.startswith sub (drop j l) = false.
Proof.
  revert i. induction l as [|b l IH]; intros i; simpl.
  - destruct (Py.startswith sub []) eqn:E; [lia|].
    intros _ _ j Hj. now replace j with 0%nat by lia.
  - destruct (Py.startswith sub (b :: l)) eqn:E; [lia|].
    intros H Hi [|j] Hj; [exact E|]. simpl. apply (IH (i + 1)); [exact H | lia | lia].
Qed.

(** [find] answers [-1] exactly when the sequence sought occurs nowhere. *)
Theorem find_absent_iff (sub l : list A) :
  Py.find sub l = -1 <-> ~ exists pre post, l = pre ++ sub ++ post.
Proof.
  split.
  - intros H (pre & post & ->).
    pose proof (find_from_absent sub _ 0 H ltac:(lia) (length pre)) as Hs.
    rewrite drop_app_length in Hs.
    assert (Py.startswith sub (sub ++ post) = true) by (apply startswith_app; eauto).
    rewrite Hs in H0; [discriminate|]. rewrite length_app. lia.
  - intros Hno. destruct (Z.eq_dec (Py.find sub l) (-1)) as [|Hne]; [assumption|].
    exfalso. apply Hno.
    destruct (find_from_found sub l 0 _ ltac:(lia) eq_refl Hne) as (j & _ & Hj & Hs & _).
    apply startswith_app in Hs as [rest Hrest].
    exists (take j l), rest. now rewrite <- Hrest, take_drop.
Qed.

Lemma find_occurrence (sub l : list A) k :
  Py.find sub l = k -> k <> -1 ->
  0 <= k <= Z.of_nat (length l) /\
  (exists rest, drop (Z.to_nat k) l = sub ++ rest) /\
  forall j, (j < Z.to_nat k)%nat -> ~ exists rest, drop j l = sub ++ rest.
Proof.
  intros Hk Hne.
  destruct (find_from_found sub l 0 k ltac:(lia) Hk Hne) as (j & -> & Hj & Hs & Hbefore).
  rewrite Z.add_0_l, Nat2Z.id. repeat split; [lia | lia | now apply startswith_app |].
  intros j' Hj' Hex. apply startswith_app in Hex. rewrite Hbefore in Hex; [discriminate|lia].
Qed.

(** When [find] answers an index, the sequence sought stands there, and
    nowhere before. *)
Theorem find_first_occurrence (sub l : list A) k :
  Py.find sub l = k -> k <> -1 ->
  0 <= k <= Z.of_nat (length l) /\
  (exists rest, drop (Z.to_nat k) l = sub ++ rest) /\
  forall j, (j < Z.to_nat k)%nat -> ~ exists rest, drop j l = sub ++ rest.
Proof. apply find_occurrence. Qed.

End Find.

Lemma find_first_occurrence_witness :
  0 <= 2 <= Z.of_nat (length (bytes_of "xyEOHzEOH")) /\
  (exists rest, drop (Z.to_nat 2) (bytes_of "xyEOHzEOH") = bytes_of "EOH" ++ rest) /\
  forall j, (j < Z.to_nat 2)%nat ->
    ~ exists rest, drop j (bytes_of "xyEOHzEOH") = bytes_of "EOH" ++ rest.
Proof.
  apply (find_first_occurrence (bytes_of "EOH") (bytes_of "xyEOHzEOH") 2);
    [vm_compute; reflexivity | lia].
Defined.

(** ** Computations that only log, and computations that return *)

Section Effects.
Context {A B : Type}.

Lemma only_logs_ret (a : A) : only_logs (ret a).
Proof. intros s. exists []. now rewrite with_log_nil. Qed.

Lemma only_logs_raise e : only_logs (@raise A e).
Proof. intros s. exists []. now rewrite with_log_nil. Qed.

Lemma only_logs_lift (r : result A) : only_logs (lift r).
Proof. intros s. exists []. now rewrite with_log_nil. Qed.

Lemma only_logs_read (f : PolarImage -> A) : only_logs (read f).
Proof. intros s. exists []. now rewrite with_log_nil. Qed.

Lemma only_logs_bind (m : M A) (k : A -> M B) :
  only_logs m -> (forall a, only_logs (k a)) -> only_logs (bind m k).
Proof.
  intros Hm Hk s. unfold bind. destruct (Hm s) as [l Hl].
  destruct (m s) as [[a|e] s1]; simpl in Hl; subst s1.
  - destruct (Hk a (with_log s l)) as [l' Hl']. exists (l ++ l').
    now rewrite Hl', with_log_app.
  - now exists l.
Qed.

Lemma only_logs_try_except (m : M A) h :
  only_logs m -> (forall e, only_logs (h e)) -> only_logs (try_except m h).
Proof.
  intros Hm Hh s. unfold try_except. destruct (Hm s) as [l Hl].
  destruct (m s) as [[a|e] s1]; simpl in Hl; subst s1.
  - now exists l.
  - destruct (Hh e (with_log s l)) as [l' Hl']. exists (l ++ l').
    now rewrite Hl', with_log_app.
Qed.

Lemma returns_ret (a : A) : returns (ret a).
Proof. intros s. now exists a. Qed.

Lemma returns_read (f : PolarImage -> A) : returns (read f).
Proof. intros s. now eexists. Qed.

Lemma returns_bind (m : M A) (k : A -> M B) :
  returns m -> (forall a, returns (k a)) -> returns (bind m k).
Proof.
  intros Hm Hk s. unfold bind. destruct (Hm s) as [a Ha].
  destruct (m s) as [[a'|e] s1]; simpl in Ha; [|discriminate].
  apply Hk.
Qed.

Lemma returns_try_except (m : M A) h (P : exn -> Prop) :
  raises_only P m -> (forall e, P e -> returns (h e)) -> returns (try_except m h).
Proof.
  intros Hm Hh s. unfold try_except.
  destruct (m s) as [[a|e] s1] eqn:E; [now exists a|].
  apply Hh, (Hm s). now rewrite E.
Qed.

Lemma raises_only_bind (P : exn -> Prop) (m : M A) (k : A -> M B) :
  raises_only P m -> (forall a, raises_only P (k a)) -> raises_only P (bind m k).
Proof.
  intros Hm Hk s e. unfold bind. destruct (m s) as [[a|e'] s1] eqn:E.
  - apply Hk.
  - simpl. intros [= <-]. apply (Hm s). now rewrite E.
Qed.

Lemma returns_raises_only (P : exn -> Prop) (m : M A) : returns m -> raises_only P m.
Proof. intros Hm s e He. destruct (Hm s) as [a Ha]. congruence. Qed.

End Effects.

Lemma only_logs_logger lvl msg : only_logs (logger lvl msg).
Proof. intros s. now exists [(lvl, msg)]. Qed.

Lemma returns_logger lvl msg : returns (logger lvl msg).
Proof. intros s. now exists tt. Qed.

Lemma returns_update f : returns (update f).
Proof. intros s. now exists tt. Qed.

Create HintDb effects.
#[local] Hint Resolve only_logs_ret only_logs_raise only_logs_lift only_logs_read
  only_logs_logger returns_ret returns_read returns_logger returns_update : effects.

(** Splits a goal on the shape of the computation. *)
Ltac effects :=
  repeat first
    [ progress auto with effects
    | apply only_logs_bind; [|intros]
    | apply only_logs_try_except; [|intros]
    | apply returns_bind; [|intros]
    | match goal with
      | |- only_logs (if ?b then _ else _) => destruct b
      | |- only_logs (match ?x with _ => _ end) => destruct x
      | |- returns (if ?b then _ else _) => destruct b
      | |- returns (match ?x with _ => _ end) => destruct x
      end ].

Lemma get_only_logs a : only_logs (get a).
Proof. unfold get. effects. Qed.

Lemma get_returns a : returns (get a).
Proof. unfold get. effects. Qed.

Lemma auto_type_only_logs s : only_logs (auto_type s).
Proof. unfold auto_type. effects. Qed.

Lemma auto_type_raises_value_error s : raises_only (fun e => e = ValueError) (auto_type s).
Proof.
  intros st e He. now destruct (auto_type_raise_cases s st e He).
Qed.

#[local] Hint Resolve get_only_logs get_returns auto_type_only_logs : effects.

Lemma process_line_only_logs line acc : only_logs (process_line line acc).
Proof. unfold process_line. destruct acc. effects. Qed.

Lemma process_line_returns line acc : returns (process_line line acc).
Proof.
  unfold process_line. destruct acc as [d nf].
  match goal with |- returns (if ?b then _ else _) => destruct b end; [effects|].
  destruct (Py.split1 _) as [|key [|value [|? ?]]]; simpl; effects.
  - eapply returns_try_except.
    + apply raises_only_bind; [apply auto_type_raises_value_error|].
      intros a. apply returns_raises_only. effects.
    + intros e ->. effects.
  - eapply returns_try_except.
    + apply raises_only_bind; [apply auto_type_raises_value_error|].
      intros a. apply returns_raises_only. effects.
    + intros e ->. effects.
Qed.

#[local] Hint Resolve process_line_only_logs process_line_returns : effects.

Lemma process_lines_only_logs lines acc : only_logs (process_lines lines acc).
Proof. revert acc. induction lines; intros acc; simpl; effects. Qed.

Lemma process_lines_returns lines acc : returns (process_lines lines acc).
Proof. revert acc. induction lines; intros acc; simpl; effects. Qed.

#[local] Hint Resolve process_lines_only_logs process_lines_returns : effects.

Lemma runs {A} (m : M A) s :
  returns m -> only_logs m -> exists a l, m s = (Ok a, with_log s l).
Proof.
  intros Hr Hl. destruct (Hr s) as [a Ha]. destruct (Hl s) as [l Hs].
  exists a, l. destruct (m s) as [r s']. simpl in *. now subst.
Qed.

Lemma returns_try_except_all {A} (m : M A) h :
  (forall e, returns (h e)) -> returns (try_except m h).
Proof.
  intros Hh. apply returns_try_except with (P := fun _ => True); [|auto].
  intros s e _. exact I.
Qed.

(** ** The header stage *)

Lemma process_header_run header_content st :
  exists h l,
    _process_header header_content st = (Ok h, with_log st l) /\
    h !! "EOH"
    = Some (mkEntry (int_or_none (eoh st)) "End of Header character position").
Proof.
  unfold _process_header.
  destruct (runs (process_lines (Py.drop_last (Py.split [x0d; x0a] header_content)) (∅, []))
              st (process_lines_returns _ _) (process_lines_only_logs _ _))
    as ([d nf] & l & Hrun).
  rewrite (bind_ok _ _ _ _ _ Hrun). unfold bind, read, logger, update, ret. simpl.
  eexists _, (l ++ [_; _]). split.
  - unfold with_log, add_log. simpl. now rewrite <- !app_assoc.
  - apply lookup_insert_eq.
Qed.

(** X7. [_process_header] never raises and touches nothing but the log, and
    its dictionary always ends up with the entry [EOH] that holds the
    position stored by [_process_file], whatever the lines say. *)
Theorem process_header_always_has_eoh header_content st :
  exists h l,
    _process_header header_content st = (Ok h, with_log st l) /\
    h !! "EOH"
    = Some (mkEntry (int_or_none (eoh st)) "End of Header character position").
Proof. apply process_header_run. Qed.

(** A line that starts with [CC] or with two stars changes nothing and
    logs nothing. *)
Theorem comment_lines_are_skipped line acc st :
  Py.startswith (bytes_of "CC") line || Py.startswith (bytes_of "**") line = true ->
  process_line line acc st = (Ok acc, st).
Proof.
  intros H. unfold process_line. destruct acc as [d nf]. now rewrite H.
Qed.

Lemma comment_lines_are_skipped_witness :
  process_line (bytes_of "** WaMoS II polar image") (∅, []) fresh = (Ok (∅, []), fresh).
Proof.
  apply (comment_lines_are_skipped (bytes_of "** WaMoS II polar image") (∅, []) fresh).
  reflexivity.
Defined.

(** X8. Comment lines, wherever they stand among the lines of the header,
    have no effect: the loop of [_process_header] ends with the same
    dictionary, the same list of keys without description and the same log
    as on the lines without them. *)
Theorem comment_lines_change_nothing before line after acc st :
  Py.startswith (bytes_of "CC") line || Py.startswith (bytes_of "**") line = true ->
  process_lines (before ++ line :: after) acc st = process_lines (before ++ after) acc st.
Proof.
  intros H. revert acc st. induction before as [|l0 before IH]; intros acc st; simpl.
  - unfold bind at 1. unfold process_line. destruct acc as [d nf]. now rewrite H.
  - unfold bind. destruct (process_line l0 acc st) as [[acc'|e] s1]; [apply IH | reflexivity].
Qed.

Lemma comment_lines_change_nothing_witness :
  process_lines
    ([bytes_of "DABIT 12 CC bits per sample"]
     ++ bytes_of "CC recorded at sea" :: [bytes_of "FIFO 2 CC samples per ray"])
    (∅, []) fresh
  = process_lines
      ([bytes_of "DABIT 12 CC bits per sample"] ++ [bytes_of "FIFO 2 CC samples per ray"])
      (∅, []) fresh.
Proof.
  apply (comment_lines_change_nothing [bytes_of "DABIT 12 CC bits per sample"]
           (bytes_of "CC recorded at sea") [bytes_of "FIFO 2 CC samples per ray"]
           (∅, []) fresh).
  reflexivity.
Defined.

(** A line that is one word once its white space is collapsed (a key with
    no value, or an empty line) is skipped: the dictionary is kept, the
    parse goes on, and one debug record is logged. *)
Theorem line_without_value_is_skipped line acc st key :
  Py.startswith (bytes_of "CC") line || Py.startswith (bytes_of "**") line = false ->
  Py.split1 (Py.normalize_spaces (latin1 line)) = [key] ->
  process_line line acc st
  = (Ok acc, add_log (DEBUG, FoundNoValue (Py.split1 (latin1 line))) st).
Proof.
  intros Hc Hs. unfold process_line. destruct acc as [d nf]. now rewrite Hc, Hs.
Qed.

Lemma line_without_value_is_skipped_witness :
  process_line (bytes_of "  LONELY  ") (∅, []) fresh
  = (Ok (∅, []),
     add_log (DEBUG, FoundNoValue (Py.split1 (latin1 (bytes_of "  LONELY  ")))) fresh).
Proof.
  apply (line_without_value_is_skipped (bytes_of "  LONELY  ") (∅, []) fresh "LONELY");
    reflexivity.
Defined.

(** The example of the specification. *)
Lemma header_line_example st :
  fst (process_line (bytes_of "FIFO 512 CCNumber of samples") (∅, []) st)
  = Ok (<["FIFO" := mkEntry (VInt 512) "Number of samples"]> ∅, []).
Proof. reflexivity. Qed.

(** ** The file stage *)

Lemma process_file_found content st :
  Py.find (bytes_of "EOH") content <> -1 ->
  exists h i e,
    _process_file (Some content) st = (Ok (Some h, Some i), set_eoh (Some e) st) /\
    h ++ i = content /\
    Z.of_nat (length h) = e /\ 1 <= e /\
    (Py.find [x0d; x0a]
       (Py.slice_from (Py.find (bytes_of "EOH") content) content) <> -1 ->
     exists pre, h = pre ++ [x0d; x0a]).
Proof.
  intros Hfound. unfold _process_file.
  destruct (Z.eqb_spec (Py.find (bytes_of "EOH") content) (-1)) as [|_]; [contradiction|].
  set (k := Py.find (bytes_of "EOH") content) in *.
  destruct (find_occurrence _ _ k eq_refl Hfound) as (Hk & [rest Hrest] & _).
  set (tl := Py.slice_from k content) in *.
  assert (Htl : tl = bytes_of "EOH" ++ rest) by exact Hrest.
  assert (Hlen : Z.of_nat (length content) = k + Z.of_nat (length tl)).
  { unfold tl, Py.slice_from. rewrite length_drop. lia. }
  assert (Htl3 : 3 <= Z.of_nat (length tl)).
  { rewrite Htl, length_app. simpl. lia. }
  set (m := Py.find [x0d; x0a] tl) in *.
  assert (Hm : m = -1 \/ (0 <= m /\ m + 2 <= Z.of_nat (length tl) /\
                          exists r, drop (Z.to_nat m) tl = [x0d; x0a] ++ r)).
  { destruct (Z.eq_dec m (-1)) as [|Hne]; [now left | right].
    destruct (find_occurrence _ _ m eq_refl Hne) as (Hm & [r Hr] & _).
    split; [lia|]. split; [|eauto].
    assert (Hl : length (drop (Z.to_nat m) tl) = (2 + length r)%nat) by now rewrite Hr.
    rewrite length_drop in Hl. lia. }
  unfold bind, update, ret. simpl.
  do 3 eexists. split; [reflexivity|].
  split; [apply take_drop|].
  assert (He : 1 <= k + m + 2 <= Z.of_nat (length content)) by lia.
  split; [|split].
  - unfold Py.slice_to. rewrite length_take. lia.
  - lia.
  - intros Hne. destruct Hm as [|(Hm0 & Hm2 & r & Hr)]; [contradiction|].
    exists (take (Z.to_nat (k + m)) content).
    unfold Py.slice_to.
    replace (Z.to_nat (k + m + 2)) with (Z.to_nat (k + m) + 2)%nat by lia.
    rewrite <- take_take_drop. f_equal.
    unfold tl, Py.slice_from in Hr. rewrite drop_drop in Hr.
    replace (Z.to_nat k + Z.to_nat m)%nat with (Z.to_nat (k + m)) in Hr by lia.
    now rewrite Hr.
Qed.

(** X9. When the marker is found, the header part and the image part are the
    content cut in two at the stored position, which is at least [1]; and
    when a line terminator follows the marker, the header part ends with
    it. *)
Theorem process_file_partitions_content content st :
  Py.find (bytes_of "EOH") content <> -1 ->
  exists h i e,
    _process_file (Some content) st = (Ok (Some h, Some i), set_eoh (Some e) st) /\
    h ++ i = content /\
    Z.of_nat (length h) = e /\ 1 <= e /\
    (Py.find [x0d; x0a]
       (Py.slice_from (Py.find (bytes_of "EOH") content) content) <> -1 ->
     exists pre, h = pre ++ [x0d; x0a]).
Proof. apply process_file_found. Qed.

Lemma process_file_partitions_content_witness :
  exists h i e,
    _process_file (Some capture12) fresh = (Ok (Some h, Some i), set_eoh (Some e) fresh) /\
    h ++ i = capture12 /\
    Z.of_nat (length h) = e /\ 1 <= e /\
    (Py.find [x0d; x0a]
       (Py.slice_from (Py.find (bytes_of "EOH") capture12) capture12) <> -1 ->
     exists pre, h = pre ++ [x0d; x0a]).
Proof.
  apply (process_file_partitions_content capture12 fresh). vm_compute. discriminate.
Defined.

(** ** The stages never raise *)

Lemma process_file_returns file : returns (_process_file file).
Proof. unfold _process_file. destruct file; effects. Qed.

Lemma process_header_returns hc : returns (_process_header hc).
Proof.
  intros s. destruct (process_header_run hc s) as (h & l & H & _).
  exists h. now rewrite H.
Qed.

Lemma process_image_returns region : returns (_process_image region).
Proof.
  intros s. destruct (process_image_run region s) as (l & H & _).
  eexists. now rewrite H.
Qed.

Lemma get_image_array_body_only_logs : only_logs get_image_array_body.
Proof.
  unfold get_image_array_body. effects.
  all: match goal with p : _ * _ |- _ => destruct p as [[? ?] ?] end; effects.
Qed.

Lemma get_image_array_run st :
  exists a l, get_image_array st = (Ok a, with_log st l).
Proof.
  apply runs.
  - unfold get_image_array. apply returns_try_except_all. intros e. effects.
  - unfold get_image_array. apply only_logs_try_except;
      [apply get_image_array_body_only_logs | intros e; effects].
Qed.

(** X10. [get_image_array] always returns an array, and touches nothing but
    the log. *)
Theorem get_image_array_returns_and_only_logs st :
  exists a l, get_image_array st = (Ok a, with_log st l).
Proof. apply get_image_array_run. Qed.

Lemma get_image_array_returns : returns get_image_array.
Proof.
  intros s. destruct (get_image_array_run s) as (a & l & H).
  exists a. now rewrite H.
Qed.

#[local] Hint Resolve process_file_returns process_header_returns process_image_returns
  get_image_array_returns : effects.

(** X11. Constructing a [PolarImage] never raises, whatever the file holds and
    whether or not it can be read. *)
Theorem constructor_never_raises file st0 : exists st, __init__ file st0 = (Ok tt, st).
Proof.
  assert (H : returns (__init__ file)).
  { unfold __init__. apply returns_bind.
    - apply returns_try_except_all. intros e. effects.
    - intros [[hc ic]|]; effects. }
  destruct (H st0) as [[] Ha]. destruct (__init__ file st0) as [r st]. simpl in Ha.
  subst r. now exists st.
Qed.

(** A file that cannot be read leaves the empty session, with the two
    critical records of the failed read and of the missing marker. *)
Lemma unreadable_file_session :
  new None
  = mkPolarImage 0 ∅ None None None
      [(CRITICAL, ErrorOpeningFile); (CRITICAL, EohMarkerNotFound)].
Proof. reflexivity. Qed.

Lemma init_after_file file st hc ic s1 :
  _process_file file st = (Ok (hc, ic), s1) ->
  __init__ file st
  = (if truthy hc
     then
       let* h := _process_header (default [] hc) in
       do update (set_header h) then
       if truthy ic
       then
         let* d := _process_image (default [] ic) in
         do update (set_image_data (Some d)) then
         let* data := read image_data in
         if truthy data
         then
           let* a := get_image_array in
           do update (set_image_array (Some a)) then
           logger INFO Processed
         else logger CRITICAL ImageDataNotFound
       else logger CRITICAL ImageContentNotFound
     else logger CRITICAL EohMarkerNotFound) s1.
Proof.
  intros H. unfold __init__, try_except. unfold bind at 1. unfold bind at 1.
  now rewrite H.
Qed.

(** X12. When nothing follows the header, the header is kept, no image data
    and no matrix are stored, and the last record logged is the critical
    one about the image content. *)
Theorem empty_image_part_keeps_header content h :
  fst (_process_file (Some content) fresh) = Ok (Some h, Some []) ->
  let s := new (Some content) in
  header s !! "EOH"
  = Some (mkEntry (VInt (Z.of_nat (length h))) "End of Header character position") /\
  image_data s = None /\ image_array s = None /\
  last (log s) = Some (CRITICAL, ImageContentNotFound).
Proof.
  intros Hf.
  assert (Hfound : Py.find (bytes_of "EOH") content <> -1).
  { intros Hno. revert Hf. unfold _process_file. simpl bytes_of in *. rewrite Hno.
    discriminate. }
  destruct (process_file_found content fresh Hfound)
    as (h' & i' & e & Hp & _ & Hlen & He & _).
  rewrite Hp in Hf. injection Hf as -> ->.
  unfold new. rewrite (init_after_file _ _ _ _ _ Hp).
  assert (Hh : truthy (Some h) = true).
  { destruct h; [simpl in Hlen; lia | reflexivity]. }
  rewrite Hh. simpl truthy. cbv iota.
  destruct (process_header_run h (set_eoh (Some e) fresh)) as (hd & l & Hrun & Heoh).
  rewrite (bind_ok _ _ _ _ _ Hrun). unfold bind, update, logger. simpl.
  repeat split.
  - rewrite Heoh. simpl. now rewrite Hlen.
  - apply last_snoc.
Qed.

Lemma empty_image_part_keeps_header_witness :
  let h := header_text ["DABIT 8 CC bits per sample"] in
  let s := new (Some (header_text ["DABIT 8 CC bits per sample"])) in
  header s !! "EOH"
  = Some (mkEntry (VInt (Z.of_nat (length h))) "End of Header character position") /\
  image_data s = None /\ image_array s = None /\
  last (log s) = Some (CRITICAL, ImageContentNotFound).
Proof.
  apply (empty_image_part_keeps_header (header_text ["DABIT 8 CC bits per sample"])
           (header_text ["DABIT 8 CC bits per sample"])).
  vm_compute. reflexivity.
Defined.

(** ** More on decoding *)

(** X13. The decoder on eight-bit data whose announced size is the length of
    the payload: it fails unless the size is a whole number of rays, and
    then delivers that many rays of [n] samples, each starting with [0]. *)
Theorem decode8_whole_rays st n payload :
  int_of (attr st "FIFO") = Ok n -> int_of (attr st "DABIT") = Ok 8 -> 0 < n ->
  image_data st = Some payload -> image_size st = Z.of_nat (length payload) ->
  (image_size st mod n <> 0 ->
     get_image_array st
     = (Ok Np.empty, add_log (CRITICAL, ErrorCreatingImageArray) st)) /\
  (image_size st mod n = 0 ->
     exists rows,
       fst (get_image_array st) = Ok (Np.Arr2 (Z.to_nat n) rows) /\
       Z.of_nat (length rows) = image_size st / n /\
       Forall (fun row => length row = Z.to_nat n /\ row !! 0%nat = Some 0 /\
                          Forall (fun x => 0 <= x <= 255) row) rows).
Proof.
  intros Hn Hd Hpos Hdata Hsize.
  pose proof (get_image_array_body_8 st n Hn Hd) as Hbody.
  unfold floordiv in Hbody. destruct (Z.eqb_spec n 0) as [|_]; [lia|].
  rewrite Hdata in Hbody.
  set (count := image_size st) in *.
  assert (Hq : 0 <= count / n) by (apply Z.div_pos; lia).
  rewrite reshape_plain, length_map in Hbody by lia.
  split; intros Hmod.
  - destruct (Z.eqb_spec (count / n * n) (Z.of_nat (length payload))) as [Heq|_].
    + exfalso. apply Hmod. apply Z.mod_divide; [lia|]. exists (count / n). lia.
    + unfold get_image_array. now rewrite (try_except_raise _ _ _ _ _ Hbody).
  - apply Z.div_exact in Hmod; [|lia].
    destruct (Z.eqb_spec (count / n * n) (Z.of_nat (length payload))) as [Heq|Hne];
      [|exfalso; apply Hne; nia].
    destruct (Z.to_nat n) as [|m] eqn:Hm; [lia|]. simpl in Hbody.
    eexists. split; [|split].
    + unfold get_image_array. rewrite (try_except_ok _ _ _ _ _ Hbody). reflexivity.
    + rewrite length_map, chunks_length. lia.
    + apply Forall_forall. intros row Hrow.
      apply list_elem_of_fmap in Hrow as (row0 & -> & Hrow0).
      pose proof (chunks_rows (S m) (Z.to_nat (count / n)) (map Np.byte_val payload)) as Hrows.
      rewrite Forall_forall in Hrows.
      assert (Hl : length row0 = S m) by (apply Hrows; [rewrite length_map; nia | exact Hrow0]).
      destruct row0 as [|x0 row0]; [discriminate|]. simpl. repeat split.
      * simpl in Hl. lia.
      * constructor; [lia|].
        pose proof (chunks_elems_in (S m) (Z.to_nat (count / n)) (map Np.byte_val payload))
          as Hin.
        rewrite Forall_forall in Hin. specialize (Hin _ Hrow0).
        apply Forall_cons in Hin as [_ Hin].
        eapply Forall_impl; [exact Hin|]. intros x Hx.
        apply list_elem_of_fmap in Hx as (b & -> & _). apply byte_val_range.
Qed.

Lemma decode8_whole_rays_witness :
  (image_size session8 mod 2 <> 0 ->
     get_image_array session8
     = (Ok Np.empty, add_log (CRITICAL, ErrorCreatingImageArray) session8)) /\
  (image_size session8 mod 2 = 0 ->
     exists rows,
       fst (get_image_array session8) = Ok (Np.Arr2 (Z.to_nat 2) rows) /\
       Z.of_nat (length rows) = image_size session8 / 2 /\
       Forall (fun row => length row = Z.to_nat 2 /\ row !! 0%nat = Some 0 /\
                          Forall (fun x => 0 <= x <= 255) row) rows).
Proof.
  apply (decode8_whole_rays session8 2 [x01; x02; x03; x04]);
    [vm_compute; reflexivity | vm_compute; reflexivity | lia
    | reflexivity | reflexivity].
Defined.

Lemma words16_lookup l ws k w :
  Np.words16 l = Some ws -> ws !! k = Some w ->
  exists lo hi, l !! (2 * k)%nat = Some lo /\ l !! (2 * k + 1)%nat = Some hi /\
                w = Np.byte_val lo + 256 * Np.byte_val hi.
Proof.
  revert ws k. induction l as [| a | a b l IH] using list_pair_ind; intros ws k; simpl.
  - intros [= <-]. discriminate.
  - discriminate.
  - destruct (Np.words16 l) as [ws'|] eqn:E; simpl; [|discriminate].
    intros [= <-]. destruct k as [|k]; simpl.
    + intros [= <-]. eauto.
    + intros Hw. destruct (IH ws' k eq_refl Hw) as (lo & hi & Hlo & Hhi & ->).
      exists lo, hi. replace (k + S (k + 0))%nat with (S (2 * k)) by lia.
      replace (k + S (k + 0) + 1)%nat with (S (2 * k + 1)) by lia. simpl. auto.
Qed.

(** X14. When DABIT is 12 and [get_image_array] delivers a matrix, its element
    in ray [i] and column [j] is the pair of payload bytes at the row-major
    position, low byte first, masked to twelve bits. *)
Theorem dabit12_elements st n rows :
  int_of (attr st "DABIT") = Ok 12 ->
  fst (get_image_array st) = Ok (Np.Arr2 n rows) ->
  exists payload, image_data st = Some payload /\
    forall i j row x, rows !! i = Some row -> row !! j = Some x ->
      exists lo hi,
        payload !! (2 * (i * n + j))%nat = Some lo /\
        payload !! (2 * (i * n + j) + 1)%nat = Some hi /\
        x = Z.land (Np.byte_val lo + 256 * Np.byte_val hi) 4095.
Proof.
  intros Hd H. destruct (get_image_array_matrix_fifo _ _ _ H) as [c Hc].
  revert H. rewrite get_image_array_handles, (get_image_array_body_12 st c Hc Hd).
  destruct (floordiv (image_size st) (2 * c)) as [r|e]; [|discriminate].
  destruct (image_data st) as [payload|]; [|discriminate].
  simpl Np.frombuffer. destruct (Np.words16 payload) as [ws|] eqn:Hws; [|discriminate].
  destruct (Np.reshape ws r c) as [a|e] eqn:Hre; [|discriminate].
  apply reshape_ok in Hre as (n' & k & -> & Hsize). simpl.
  intros [= <- <-]. exists payload. split; [reflexivity|].
  intros i j row x Hrow Hx.
  rewrite list_lookup_fmap in Hrow.
  destruct (Np.chunks n' k ws !! i) as [row0|] eqn:Hrow0; [|discriminate].
  injection Hrow as <-. rewrite list_lookup_fmap in Hx.
  destruct (row0 !! j) as [w|] eqn:Hw; [|discriminate]. injection Hx as <-.
  pose proof (chunks_elem _ _ _ _ _ _ _ Hrow0 Hw) as Hk.
  destruct (words16_lookup _ _ _ _ Hws Hk) as (lo & hi & Hlo & Hhi & ->). eauto.
Qed.

Lemma dabit12_elements_witness :
  exists payload, image_data (snd (_process_image
                     (bytes_of "0000000008" ++ [x01; x10; xff; xff; x00; x00; x34; x12])
                     parsed12)) = Some payload /\
    forall i j row x, [[1; 4095]; [0; 564]] !! i = Some row -> row !! j = Some x ->
      exists lo hi,
        payload !! (2 * (i * 2 + j))%nat = Some lo /\
        payload !! (2 * (i * 2 + j) + 1)%nat = Some hi /\
        x = Z.land (Np.byte_val lo + 256 * Np.byte_val hi) 4095.
Proof.
  apply (dabit12_elements
           (snd (_process_image
                   (bytes_of "0000000008" ++ [x01; x10; xff; xff; x00; x00; x34; x12])
                   parsed12)) 2 [[1; 4095]; [0; 564]]);
    vm_compute; reflexivity.
Defined.

(** X15. [_process_image] never raises; it returns and stores the image part
    from its eleventh byte on for every DABIT, with the size that
    [get_image_size] read, and leaves header, marker position and matrix
    alone. *)
Theorem payload_offset_is_always_ten region st :
  let s := snd (_process_image region st) in
  fst (_process_image region st) = Ok (Py.slice_from 10 region) /\
  image_data s = Some (Py.slice_from 10 region) /\
  image_size s = announced_size st region /\
  header s = header st /\ eoh s = eoh st /\ image_array s = image_array st.
Proof.
  destruct (process_image_run region st) as (l & H & _). simpl. now rewrite H.
Qed.

(** ** What [render] keeps *)

Lemma same_capture_refl s : same_capture s s.
Proof. now repeat split. Qed.

Lemma same_capture_trans s1 s2 s3 :
  same_capture s1 s2 -> same_capture s2 s3 -> same_capture s1 s3.
Proof. unfold same_capture. intros (-> & -> & -> & ->) (-> & -> & -> & ->). auto. Qed.

Section Frame.
Context {A B : Type}.

Lemma keeps_capture_only_logs (m : M A) : only_logs m -> keeps_capture m.
Proof. intros H s. destruct (H s) as [l ->]. now repeat split. Qed.

Lemma keeps_capture_bind (m : M A) (k : A -> M B) :
  keeps_capture m -> (forall a, keeps_capture (k a)) -> keeps_capture (bind m k).
Proof.
  intros Hm Hk s. unfold bind. specialize (Hm s).
  destruct (m s) as [[a|e] s1]; simpl in *; [|exact Hm].
  eapply same_capture_trans; [exact Hm | apply Hk].
Qed.

End Frame.

Lemma keeps_capture_set_image_array v : keeps_capture (update (set_image_array v)).
Proof. intros s. now repeat split. Qed.

Ltac frame :=
  repeat first
    [ apply keeps_capture_set_image_array
    | apply keeps_capture_only_logs; solve [effects]
    | apply keeps_capture_bind; [|intros]
    | match goal with
      | |- keeps_capture (if ?b then _ else _) => destruct b
      | |- keeps_capture (match ?x with _ => _ end) => destruct x
      end ].

Lemma render_keeps_capture_lemma orient toggle c : keeps_capture (render orient toggle c).
Proof. unfold render. frame. Qed.

(** X16. [render], [saveto] and [save_with_metadata], whether they return or
    raise, leave the image size, the header, the image data and the marker
    position as they were. *)
Theorem rendering_keeps_capture orient toggle c out st :
  same_capture st (snd (render orient toggle c st)) /\
  same_capture st (snd (saveto out st)) /\
  same_capture st (snd (save_with_metadata out st)).
Proof.
  split; [apply render_keeps_capture_lemma|]. split.
  - unfold saveto. assert (H : keeps_capture (saveto out)).
    { unfold saveto. apply keeps_capture_bind.
      - apply keeps_capture_only_logs. destruct (no_path out); effects.
      - intros _. apply render_keeps_capture_lemma. }
    apply H.
  - assert (H : keeps_capture (save_with_metadata out)).
    { unfold save_with_metadata. apply keeps_capture_bind.
      - apply keeps_capture_only_logs. destruct (no_path out); effects.
      - intros _. apply keeps_capture_bind; [apply render_keeps_capture_lemma|].
        intros fig. frame. }
    apply H.
Qed.

(** X17. [render] cannot draw what is not a matrix: on a session whose
    decoding failed (the empty array) or never ran, it raises. *)
Theorem render_needs_a_matrix orient toggle c st :
  (forall n rows, image_array st <> Some (Np.Arr2 n rows)) ->
  is_ok (fst (render orient toggle c st)) = false.
Proof.
  intros Hno. destruct (render orient toggle c st) as [[fig|e] st'] eqn:Hr; [|reflexivity].
  exfalso. destruct (render_ints _ _ _ _ _ _ Hr) as (sf & sd & Hsf & Hsd).
  destruct (render_run _ _ _ _ _ _ _ _ Hsf Hsd Hr) as (p & n & rows & l & _ & _ & Harr & _).
  exact (Hno n rows Harr).
Qed.

Lemma render_needs_a_matrix_witness :
  is_ok (fst (render true false "Greys_r" (new (Some capture8)))) = false.
Proof.
  apply (render_needs_a_matrix true false "Greys_r" (new (Some capture8))).
  intros n rows. vm_compute. discriminate.
Defined.

(** X18. A call of [render] can fail after it has widened the matrix: when the
    bow-to-radar angle cannot be doubled and converted, the call does not
    return, and the stored matrix is the widened one all the same. (The
    matrix is widened before anything is drawn and the angle is read last,
    so this holds whether the failure comes from the angle or, earlier,
    from the plotting library.) *)
Theorem render_fails_after_widening toggle c st sf sd p n rows :
  int_of (attr st "SFREQ") = Ok sf -> int_of (attr st "SDRNG") = Ok sd ->
  pixels_to_omit sf sd = Ok p -> 0 <= p ->
  image_array st = Some (Np.Arr2 n rows) ->
  is_ok (and_then (twice (attr st "BO2RA")) int_of) = false ->
  is_ok (fst (render true toggle c st)) = false /\
  image_array (snd (render true toggle c st))
  = Some (widened (Z.to_nat p) (highest_brightness st) n rows).
Proof.
  intros Hsf Hsd Hp Hp0 Harr Hbow.
  destruct (render true toggle c st) as [r st'] eqn:Hr. simpl. revert Hr. unfold render.
  rewrite (bind_ok _ _ _ _ _ (get_int _ _ _ Hsf)).
  unfold lift at 1. rewrite Hsf. unfold bind at 1.
  rewrite (bind_ok _ _ _ _ _ (get_int _ _ _ Hsd)).
  unfold lift at 1. rewrite Hsd. unfold bind at 1.
  unfold lift at 1. rewrite Hp. unfold bind at 1.
  destruct (get_logs "DABIT" st) as [l Hg]. rewrite (bind_ok _ _ _ _ _ Hg).
  unfold read at 1. unfold bind at 1. simpl image_array. rewrite Harr.
  unfold ret at 1. unfold bind at 1.
  unfold lift at 1. unfold Np.full.
  destruct (Z.ltb_spec p 0) as [|_]; [lia|]. unfold bind at 1.
  unfold lift at 1. simpl Np.concatenate1.
  rewrite repeat_length. rewrite bool_decide_true by reflexivity.
  unfold bind at 1. unfold update at 1. unfold bind at 1.
  unfold lift at 1. simpl shape1. unfold bind at 1.
  rewrite zip_with_app_repeat.
  fold (highest_brightness st).
  fold (widened (Z.to_nat p) (highest_brightness st) n rows).
  set (st2 := set_image_array _ _).
  destruct (get_logs "BO2RA" st2) as [l2 Hg2].
  unfold bind at 1. rewrite (bind_ok _ _ _ _ _ Hg2).
  change (attr st2 "BO2RA") with (attr st "BO2RA").
  unfold and_then in Hbow. unfold lift at 1.
  destruct (twice (attr st "BO2RA")) as [v|e']; unfold bind at 1.
  - unfold lift at 1. destruct (int_of v) as [z|e]; [discriminate|].
    unfold bind. simpl. intros [= <- <-]. split; reflexivity.
  - simpl. intros [= <- <-]. split; reflexivity.
Qed.

Lemma render_fails_after_widening_witness :
  is_ok (fst (render true false "Greys_r" (new (Some capture_nobow)))) = false /\
  image_array (snd (render true false "Greys_r" (new (Some capture_nobow))))
  = Some (widened (Z.to_nat 8) (highest_brightness (new (Some capture_nobow))) 2
            [[1; 4095]; [0; 564]]).
Proof.
  apply (render_fails_after_widening false "Greys_r" (new (Some capture_nobow)) 40 15 8 2
           [[1; 4095]; [0; 564]]);
    try (vm_compute; reflexivity). lia.
Defined.

(** ** The blanking width *)

(** A sampling frequency of zero makes the range resolution a division by
    zero, whatever the delay. *)
Lemma zero_sampling_frequency_divides_by_zero sd :
  pixels_to_omit 0 sd = Raise ZeroDivisionError.
Proof. reflexivity. Qed.

(** X19. With a sampling frequency of zero in the header, [render] raises
    [ZeroDivisionError] before it touches the session: the matrix is not
    widened and nothing is logged. *)
Theorem render_raises_on_zero_sampling_frequency orient toggle c st sd :
  int_of (attr st "SFREQ") = Ok 0 -> int_of (attr st "SDRNG") = Ok sd ->
  render orient toggle c st = (Raise ZeroDivisionError, st).
Proof.
  intros Hsf Hsd. unfold render.
  rewrite (bind_ok _ _ _ _ _ (get_int _ _ _ Hsf)).
  unfold lift at 1. rewrite Hsf. unfold bind at 1.
  rewrite (bind_ok _ _ _ _ _ (get_int _ _ _ Hsd)).
  unfold lift at 1. rewrite Hsd. unfold bind at 1.
  unfold lift at 1. rewrite zero_sampling_frequency_divides_by_zero. reflexivity.
Qed.

Lemma render_raises_on_zero_sampling_frequency_witness :
  render true false "Greys_r" (new (Some capture_nofreq))
  = (Raise ZeroDivisionError, new (Some capture_nofreq)).
Proof.
  apply (render_raises_on_zero_sampling_frequency true false "Greys_r"
           (new (Some capture_nofreq)) 15);
    vm_compute; reflexivity.
Defined.

Lemma forallb_upto (f : Z -> bool) n z :
  forallb f (upto n) = true -> 0 <= z <= Z.of_nat n -> f z = true.
Proof.
  intros H Hz. rewrite forallb_forall in H. apply H. unfold upto.
  apply in_map_iff. exists (Z.to_nat z). split; [lia|]. apply in_seq. lia.
Qed.

(** The binary64 width at 40 MHz against the exact one, for every delay
    from 0 to 4000. *)
Lemma widths_40_exact sd :
  0 <= sd <= 4000 -> pixels_to_omit 40 sd = Ok (exact_width_40 sd).
Proof.
  intros H.
  assert (Hall : forallb width_40_is_exact (upto 4000) = true) by (vm_compute; reflexivity).
  pose proof (forallb_upto width_40_is_exact 4000 sd Hall ltac:(lia)) as Hsd.
  unfold width_40_is_exact in Hsd.
  destruct (pixels_to_omit 40 sd) as [p|e]; [|discriminate].
  apply Z.eqb_eq in Hsd. now subst.
Qed.

(** X20. At 40 MHz and for every delay from 0 to 4000 metres, the binary64
    computation of [render] gives the exact width: twice the delay over
    3.75, rounded up. *)
Theorem blanking_width_40_is_exact sd :
  0 <= sd <= 4000 -> pixels_to_omit 40 sd = Ok (exact_width_40 sd).
Proof. apply widths_40_exact. Qed.

Lemma blanking_width_40_is_exact_witness : pixels_to_omit 40 15 = Ok (exact_width_40 15).
Proof. apply (blanking_width_40_is_exact 15). lia. Defined.

(** ** The blanking width and the specification *)







(** ** The shape of a decoded matrix *)

(** X21. A matrix that [get_image_array] delivers is rectangular and accounts
    for the whole payload: every ray has the width of the matrix, and rays
    times width times the bytes of a sample is the length of the payload. *)
Theorem decoded_matrix_covers_payload st n rows :
  fst (get_image_array st) = Ok (Np.Arr2 n rows) ->
  exists d payload,
    int_of (attr st "DABIT") = Ok d /\ (d = 8 \/ d = 12) /\
    image_data st = Some payload /\
    Forall (fun row => length row = n) rows /\
    (length rows * n * sample_bytes d = length payload)%nat.
Proof.
  intros H. destruct (get_image_array_matrix_fifo _ _ _ H) as [c Hc].
  assert (Hd : exists d, int_of (attr st "DABIT") = Ok d /\ (d = 8 \/ d = 12)).
  { revert H. rewrite get_image_array_handles. unfold get_image_array_body.
    rewrite (bind_ok _ _ _ _ _ (get_int _ _ _ Hc)).
    unfold lift at 1. rewrite Hc. unfold bind at 1.
    destruct (get_logs "DABIT" st) as [l Hg]. rewrite (bind_ok _ _ _ _ _ Hg).
    unfold lift at 1. destruct (int_of (attr st "DABIT")) as [d|e]; unfold bind at 1;
      [|discriminate].
    intros H. exists d. split; [reflexivity|].
    destruct (Z.eq_dec d 12) as [|H12]; [now right|].
    destruct (Z.eq_dec d 8) as [|H8]; [now left|]. exfalso. revert H.
    unfold read at 1. unfold bind at 1.
    destruct (Z.eqb_spec d 12); [contradiction|].
    destruct (Z.eqb_spec d 8); [contradiction|]. discriminate. }
  destruct Hd as (d & Hd & [-> | ->]); [exists 8 | exists 12]; revert H;
    rewrite get_image_array_handles.
  - rewrite (get_image_array_body_8 st c Hc Hd).
    destruct (floordiv (image_size st) c) as [r|e]; [|discriminate].
    destruct (image_data st) as [payload|]; [|discriminate].
    destruct (Np.reshape (map Np.byte_val payload) r c) as [a|e] eqn:Hre; [|discriminate].
    apply reshape_ok in Hre as (n' & k & -> & Hsize).
    destruct n' as [|m]; simpl; [discriminate|].
    intros [= <- <-]. exists payload. repeat split; auto.
    + apply Forall_forall. intros row Hrow.
      apply list_elem_of_fmap in Hrow as (row0 & -> & Hrow0).
      pose proof (chunks_rows (S m) k (map Np.byte_val payload) ltac:(lia)) as Hrows.
      rewrite Forall_forall in Hrows. specialize (Hrows _ Hrow0).
      destruct row0; [discriminate | exact Hrows].
    + rewrite length_map, chunks_length. rewrite length_map in Hsize.
      change (sample_bytes 8) with 1%nat. lia.
  - rewrite (get_image_array_body_12 st c Hc Hd).
    destruct (floordiv (image_size st) (2 * c)) as [r|e]; [|discriminate].
    destruct (image_data st) as [payload|]; [|discriminate].
    simpl Np.frombuffer. destruct (Np.words16 payload) as [ws|] eqn:Hws; [|discriminate].
    destruct (Np.reshape ws r c) as [a|e] eqn:Hre; [|discriminate].
    apply reshape_ok in Hre as (n' & k & -> & Hsize). simpl.
    intros [= <- <-]. exists payload. repeat split; auto.
    + apply Forall_forall. intros row Hrow.
      apply list_elem_of_fmap in Hrow as (row0 & -> & Hrow0). rewrite length_map.
      pose proof (chunks_rows n' k ws ltac:(lia)) as Hrows.
      rewrite Forall_forall in Hrows. exact (Hrows _ Hrow0).
    + rewrite length_map, chunks_length. apply words16_length in Hws.
      change (sample_bytes 12) with 2%nat. lia.
Qed.

Lemma decoded_matrix_covers_payload_witness :
  exists d payload,
    int_of (attr session8 "DABIT") = Ok d /\ (d = 8 \/ d = 12) /\
    image_data session8 = Some payload /\
    Forall (fun row => length row = 2%nat) [[0; 2]; [0; 4]] /\
    (length [[0; 2]; [0; 4]] * 2 * sample_bytes d = length payload)%nat.
Proof.
  apply (decoded_matrix_covers_payload session8 2 [[0; 2]; [0; 4]]).
  vm_compute. reflexivity.
Defined.

(** ** The grids of the inspector *)

Lemma fill_grid_keys width keys d row col :
  map (fun cell => fst (fst cell)) (Inspector.fill_grid width keys d row col)
  = Inspector.shown keys d.
Proof.
  revert row col. induction keys as [|key rest IH]; intros row col; simpl; [reflexivity|].
  unfold Inspector.shown. rewrite filter_cons.
  destruct (d !! key) as [e|] eqn:E.
  - rewrite decide_True by eauto. simpl. f_equal.
    destruct (width <=? col + 1)%nat; apply IH.
  - rewrite decide_False by (intros [? ?]; discriminate). apply IH.
Qed.

Lemma fill_grid_cells width keys d row col k key r c :
  (0 < width)%nat -> (col < width)%nat ->
  Inspector.fill_grid width keys d row col !! k = Some (key, r, c) ->
  (r * width + c = row * width + col + k)%nat /\ (c < width)%nat.
Proof.
  intros Hw. revert row col k. induction keys as [|key0 rest IH]; intros row col k Hcol;
    simpl; [discriminate|].
  destruct (d !! key0) as [e|]; [|now apply IH].
  destruct k as [|k]; simpl.
  - intros [= <- <- <-]. clear IH. split; [now rewrite Nat.add_0_r | assumption].
  - destruct (Nat.leb_spec width (col + 1)) as [Hle|Hlt]; intros Hk.
    + apply IH in Hk as [Hk1 Hk2]; [|assumption]. split; [|assumption].
      assert (width = col + 1)%nat as Hwd by lia.
      rewrite Hk1, Nat.mul_add_distr_r, Nat.mul_1_l. clear IH Hk1.
      generalize (row * width)%nat. intros m. lia.
    + apply IH in Hk as [Hk1 Hk2]; [|lia]. split; [|assumption]. rewrite Hk1. clear IH Hk1.
      generalize (row * width)%nat. intros m. lia.
Qed.

Lemma grid_position width k r c :
  (0 < width)%nat -> (r * width + c = k)%nat -> (c < width)%nat ->
  r = (k / width)%nat /\ c = (k mod width)%nat.
Proof.
  intros Hw <- Hc. rewrite Nat.add_comm.
  rewrite Nat.div_add, Nat.Div0.mod_add by (intros ->; inversion Hw).
  rewrite Nat.div_small, Nat.mod_small by assumption. split; reflexivity.
Qed.


Lemma location_grid_eq d :
  Inspector.location_grid d = Inspector.fill_grid 2 Inspector.location_keys d 0 0.
Proof. reflexivity. Qed.

Lemma environmental_grid_eq d :
  Inspector.environmental_grid d
  = Inspector.fill_grid 5 Inspector.environmental_keys d 0 0.
Proof. reflexivity. Qed.

Lemma fill_grid_row_by_row width keys d k key r c :
  (0 < width)%nat ->
  Inspector.fill_grid width keys d 0 0 !! k = Some (key, r, c) ->
  r = (k / width)%nat /\ c = (k mod width)%nat.
Proof.
  intros Hw H. destruct (fill_grid_cells _ _ _ _ _ _ _ _ _ Hw Hw H) as [Hpos Hc].
  now apply grid_position.
Qed.

(** X23. Each grid of the inspector shows exactly the keys of its list that
    the dictionary holds, in the order of the list, and the [k]-th of them
    stands in row [k / width] and column [k mod width]: two per row for
    the location, five per row for the environment. *)
Theorem inspector_grids_fill_row_by_row d :
  map (fun cell => fst (fst cell)) (Inspector.location_grid d)
  = Inspector.shown Inspector.location_keys d /\
  map (fun cell => fst (fst cell)) (Inspector.environmental_grid d)
  = Inspector.shown Inspector.environmental_keys d /\
  (forall k key r c, Inspector.location_grid d !! k = Some (key, r, c) ->
     r = (k / 2)%nat /\ c = (k mod 2)%nat) /\
  (forall k key r c, Inspector.environmental_grid d !! k = Some (key, r, c) ->
     r = (k / 5)%nat /\ c = (k mod 5)%nat).
Proof.
  rewrite location_grid_eq, environmental_grid_eq.
  split; [apply fill_grid_keys|]. split; [apply fill_grid_keys|].
  split; intros k key r c; apply fill_grid_row_by_row; repeat constructor.
Qed.
